(** * Worker matching, recommendation and the task life cycle

    A shallow embedding of the core of the household-task marketplace:
    [tasks/models.py], [tasks/forms.py], [tasks/recommendations.py] and
    [tasks/views.py].  The ORM tables are lists of records, the views are
    functions from a database to an outcome and a database, Python
    exceptions are values of [exn], [Decimal] is a coefficient with a
    decimal exponent and Python floats are the kernel's binary64 floats. *)

From Stdlib Require Import ZArith QArith Qreals Reals List String Ascii Bool.
From Stdlib Require Import Lia Lra Permutation.
From Stdlib Require Floats Uint63.
Import ListNotations.

Open Scope Z_scope.

(** ** Python values *)

(** The exceptions the modelled code can raise. *)
Inductive exn : Type :=
| TypeError        (* arithmetic on [None] *)
| AttributeError   (* attribute access on [None] *)
| KeyError         (* missing dictionary key *)
| ZeroDivisionError
| Http404          (* [get_object_or_404] *)
| DoesNotExist.    (* [Model.objects.get] and missing one-to-one relations *)

Inductive result (A : Type) : Type :=
| Ok (a : A)
| Raise (e : exn).
Arguments Ok {A} a.
Arguments Raise {A} e.

Definition bind {A B : Type} (m : result A) (k : A -> result B) : result B :=
  match m with
  | Ok a => k a
  | Raise e => Raise e
  end.

Notation "x <- m ;; k" := (bind m (fun x => k))
  (at level 61, m at next level, right associativity).

(** [for x in l: acc = body(x, acc)], stopping at the first exception. *)
Fixpoint for_each {A S : Type} (l : list A) (body : A -> S -> result S) (acc : S)
  : result S :=
  match l with
  | [] => Ok acc
  | x :: l' => acc' <- body x acc ;; for_each l' body acc'
  end.

(** *** Dictionaries

    A Python [dict] keeps its keys in insertion order and assigning to a key
    that is present keeps the key's position: an association list without
    repeated keys. *)
Module Dict.
Definition t (V : Type) : Type := list (Z * V).

Fixpoint get {V : Type} (k : Z) (d : t V) : option V :=
  match d with
  | [] => None
  | (k', v) :: d' => if k =? k' then Some v else get k d'
  end.

Definition mem {V : Type} (k : Z) (d : t V) : bool :=
  match get k d with Some _ => true | None => false end.

(** [d[k] = v] *)
Fixpoint set {V : Type} (k : Z) (v : V) (d : t V) : t V :=
  match d with
  | [] => [(k, v)]
  | (k', v') :: d' => if k =? k' then (k', v) :: d' else (k', v') :: set k v d'
  end.

Definition items {V : Type} (d : t V) : list (Z * V) := d.
Definition keys {V : Type} (d : t V) : list Z := map fst d.
Definition values {V : Type} (d : t V) : list V := map snd d.
Definition len {V : Type} (d : t V) : Z := Z.of_nat (List.length d).
End Dict.

(** *** Slices: [l[:n]] for a Python integer [n]. *)
Definition slice_to {A : Type} (n : Z) (l : list A) : list A :=
  if 0 <=? n then firstn (Z.to_nat n) l
  else firstn (List.length l - Z.to_nat (- n)) l.

(** *** Strings: [icontains] is a substring test after ASCII case folding. *)
Definition lower_ascii (c : ascii) : ascii :=
  let n := nat_of_ascii c in
  if ((65 <=? n) && (n <=? 90))%nat then ascii_of_nat (n + 32) else c.

Fixpoint lower (s : string) : string :=
  match s with
  | EmptyString => EmptyString
  | String c s' => String (lower_ascii c) (lower s')
  end.

Fixpoint contains (needle hay : string) : bool :=
  if prefix needle hay then true
  else match hay with
       | EmptyString => false
       | String _ hay' => contains needle hay'
       end.

Definition icontains (field query : string) : bool :=
  contains (lower query) (lower field).

(** *** [decimal.Decimal]

    A finite decimal is [coef * 10 ^ exp]; the default context has 28
    significant digits and rounds half to even. *)
Module Decimal.
Record t : Type := mk { coef : Z; exp : Z }.

Definition value (d : t) : Q :=
  if 0 <=? exp d then inject_Z (coef d * 10 ^ exp d)
  else (inject_Z (coef d) / inject_Z (10 ^ (- exp d)))%Q.

Definition context_prec : Z := 28.

Fixpoint ndigits_fuel (fuel : nat) (n : Z) : Z :=
  match fuel with
  | O => 1
  | S fuel' => if n <? 10 then 1 else 1 + ndigits_fuel fuel' (n / 10)
  end.

(** Number of decimal digits of a magnitude. *)
Definition ndigits (n : Z) : Z := ndigits_fuel (Z.to_nat (Z.log2 n)) n.

(** Drop the last [k] digits of a magnitude, rounding half to even. *)
Definition round_half_even (n k : Z) : Z :=
  let q := n / 10 ^ k in
  let r := n mod 10 ^ k in
  let half := 5 * 10 ^ (k - 1) in
  if (half <? r) || ((r =? half) && Z.odd q) then q + 1 else q.

(** [Context._fix]: bring a result to at most [context_prec] digits. *)
Definition fix_prec (d : t) : t :=
  let n := Z.abs (coef d) in
  let k := ndigits n - context_prec in
  if k <=? 0 then d
  else
    let q := round_half_even n k in
    let '(q, k) := if ndigits q <=? context_prec then (q, k) else (q / 10, k + 1) in
    mk (Z.sgn (coef d) * q) (exp d + k).

(** [a * b] *)
Definition mul (a b : t) : t :=
  fix_prec (mk (coef a * coef b) (exp a + exp b)).

(** Cancel factors of two between a mantissa and [2 ^ k]
    ([float.as_integer_ratio] returns the ratio in lowest terms). *)
Fixpoint lowest_terms (m : positive) (k : nat) : positive * nat :=
  match k, m with
  | S k', xO m' => lowest_terms m' k'
  | _, _ => (m, k)
  end.

(** [Decimal(f)] for a float [f]: the exact value of [f];
    [Decimal.from_float] builds it as [n * 5 ^ k] with exponent [- k]
    where [f = n / 2 ^ k] in lowest terms.  [None] stands for the
    non-finite floats, which no division of a time difference yields. *)
Definition from_float (f : PrimFloat.float) : option t :=
  match FloatOps.Prim2SF f with
  | SpecFloat.S754_zero _ => Some (mk 0 0)
  | SpecFloat.S754_finite s m e =>
      let sign := if s then -1 else 1 in
      if 0 <=? e then Some (mk (sign * (Zpos m * 2 ^ e)) 0)
      else
        let '(n, k) := lowest_terms m (Z.to_nat (- e)) in
        Some (mk (sign * (Zpos n * 5 ^ Z.of_nat k)) (- Z.of_nat k))
  | _ => None
  end.
End Decimal.

(** *** Floats: an integer operand of a true division becomes a float. *)
Definition Z2float (z : Z) : PrimFloat.float :=
  if z <? 0 then PrimFloat.opp (PrimFloat.of_uint63 (Uint63.of_Z (- z)))
  else PrimFloat.of_uint63 (Uint63.of_Z z).

(** ** tasks/models.py and users/models.py *)

Inductive task_status : Type :=
| requested
| in_progress
| completed
| rejected
| vanished.

Definition status_eqb (a b : task_status) : bool :=
  match a, b with
  | requested, requested | in_progress, in_progress | completed, completed
  | rejected, rejected | vanished, vanished => true
  | _, _ => false
  end.

Module Worker.
Record t : Type := mk {
  id : Z;
  username : string;        (* [worker.user.username] *)
  skills : string;
  hourly_rate : Decimal.t;
  is_available : bool
}.
End Worker.

(** Timestamps are microseconds on the time line. *)
Module Task.
Record t : Type := mk {
  pk : option Z;                 (* [None] before the first save *)
  request_id : option string;
  customer : Z;
  worker : option Z;             (* foreign key, nullable *)
  title : string;
  description : string;
  start_time : Z;
  end_time : Z;
  location : string;
  status : task_status;
  rating : option Z;
  review : string;
  hourly_rate : option Decimal.t;
  total_cost : option Decimal.t
}.

Definition set_pk (p : option Z) (x : t) : t :=
  mk p (request_id x) (customer x) (worker x) (title x) (description x)
     (start_time x) (end_time x) (location x) (status x) (rating x)
     (review x) (hourly_rate x) (total_cost x).

Definition set_request_id (r : option string) (x : t) : t :=
  mk (pk x) r (customer x) (worker x) (title x) (description x)
     (start_time x) (end_time x) (location x) (status x) (rating x)
     (review x) (hourly_rate x) (total_cost x).

Definition set_worker (w : option Z) (x : t) : t :=
  mk (pk x) (request_id x) (customer x) w (title x) (description x)
     (start_time x) (end_time x) (location x) (status x) (rating x)
     (review x) (hourly_rate x) (total_cost x).

Definition set_status (s : task_status) (x : t) : t :=
  mk (pk x) (request_id x) (customer x) (worker x) (title x) (description x)
     (start_time x) (end_time x) (location x) s (rating x)
     (review x) (hourly_rate x) (total_cost x).

Definition set_hourly_rate (r : option Decimal.t) (x : t) : t :=
  mk (pk x) (request_id x) (customer x) (worker x) (title x) (description x)
     (start_time x) (end_time x) (location x) (status x) (rating x)
     (review x) r (total_cost x).

Definition set_total_cost (c : option Decimal.t) (x : t) : t :=
  mk (pk x) (request_id x) (customer x) (worker x) (title x) (description x)
     (start_time x) (end_time x) (location x) (status x) (rating x)
     (review x) (hourly_rate x) c.
End Task.

Module TaskNotification.
Record t : Type := mk { task : option Z; message : string; customer : Z }.
End TaskNotification.

(** ** The database

    [workers] is the worker table in table order.  [tasks] is the task table
    in the order every [Task.objects] query returns it, [Meta.ordering =
    ["-created_time"]]: newest row first, so an insert adds at the head.
    [next_pk] is the next primary key of the task table. *)
Record DB : Type := mkDB {
  workers : list Worker.t;
  tasks : list Task.t;
  notifications : list TaskNotification.t;
  next_pk : Z
}.

Definition set_tasks (ts : list Task.t) (db : DB) : DB :=
  mkDB (workers db) ts (notifications db) (next_pk db).

Definition option_eqb {A : Type} (eqb : A -> A -> bool) (a b : option A) : bool :=
  match a, b with
  | Some x, Some y => eqb x y
  | None, None => true
  | _, _ => false
  end.

Definition pk_eqb : option Z -> option Z -> bool := option_eqb Z.eqb.
Definition request_id_eqb : option string -> option string -> bool :=
  option_eqb String.eqb.

(** [task.save()]: an instance without primary key is inserted under a fresh
    one; an instance with a primary key overwrites its row (and is inserted
    when no row has that key).  The saved instance carries its key. *)
Definition save (x : Task.t) (db : DB) : Task.t * DB :=
  match Task.pk x with
  | None =>
      let x' := Task.set_pk (Some (next_pk db)) x in
      (x', mkDB (workers db) (x' :: tasks db) (notifications db) (next_pk db + 1))
  | Some _ =>
      if existsb (fun y => pk_eqb (Task.pk y) (Task.pk x)) (tasks db)
      then (x, set_tasks
                 (map (fun y => if pk_eqb (Task.pk y) (Task.pk x) then x else y)
                      (tasks db)) db)
      else (x, set_tasks (x :: tasks db) db)
  end.

(** [TaskNotification.objects.create(...)] *)
Definition create_notification (n : TaskNotification.t) (db : DB) : DB :=
  mkDB (workers db) (tasks db) (n :: notifications db) (next_pk db).

(** [Task.objects.get(pk=pk)] behind [get_object_or_404] and [get_object]. *)
Definition get_object_or_404 (db : DB) (pk : Z) : result Task.t :=
  match find (fun y => pk_eqb (Task.pk y) (Some pk)) (tasks db) with
  | Some x => Ok x
  | None => Raise Http404
  end.

(** [Worker.objects.get(id=id)] *)
Definition get_worker (db : DB) (id : Z) : result Worker.t :=
  match find (fun w => Worker.id w =? id) (workers db) with
  | Some w => Ok w
  | None => Raise DoesNotExist
  end.

(** [sorted(l, reverse=True)] and [order_by] on descending keys: a stable
    sort, larger elements first, equal elements in their original order.
    [lt a b] says that [a] sorts strictly below [b]. *)
Section Sorting.
Context {A : Type} (lt : A -> A -> bool).

Fixpoint insert_desc (x : A) (l : list A) : list A :=
  match l with
  | [] => [x]
  | y :: l' => if lt x y then y :: insert_desc x l' else x :: l
  end.

Definition sort_desc (l : list A) : list A := fold_right insert_desc [] l.
End Sorting.

(** ** tasks/recommendations.py

    Ratings are integers; [sum(...) / len(...)] is a true division.  The
    arithmetic on the ratings is carried out exactly, on rationals, and the
    square root on reals: the embedding reads the Python floats of this
    function as the numbers they approximate. *)
Module Recommendations.

(** [Task.objects.filter(worker__id=worker_id, status="completed")] *)
Definition completed_tasks (db : DB) (worker_id : Z) : list Task.t :=
  filter (fun x => pk_eqb (Task.worker x) (Some worker_id)
                   && status_eqb (Task.status x) completed) (tasks db).

(** The loop [for task in worker_tasks: ratings[task.customer.id] = task.rating];
    a rating may be [None], the column is nullable. *)
Definition ratings_of (db : DB) (worker_id : Z) : Dict.t (option Z) :=
  fold_left (fun d task => Dict.set (Task.customer task) (Task.rating task) d)
            (completed_tasks db worker_id) [].

(** [sum(values)]: [0 + v1 + v2 + ...], a [TypeError] on [None]. *)
Fixpoint py_sum_from (acc : Z) (l : list (option Z)) : result Z :=
  match l with
  | [] => Ok acc
  | Some v :: l' => py_sum_from (acc + v) l'
  | None :: _ => Raise TypeError
  end.

Definition py_sum (l : list (option Z)) : result Z := py_sum_from 0 l.

(** [sum(ratings.values()) / len(ratings)] *)
Definition mean (ratings : Dict.t (option Z)) : result Q :=
  s <- py_sum (Dict.values ratings) ;;
  if Dict.len ratings =? 0 then Raise ZeroDivisionError
  else Ok (inject_Z s / inject_Z (Dict.len ratings))%Q.

(** [r - sum(ratings.values()) / len(ratings)]: the sum is evaluated, then
    the subtraction, which fails on a rating that is [None]. *)
Definition deviation (r : option Z) (ratings : Dict.t (option Z)) : result Q :=
  m <- mean ratings ;;
  match r with
  | Some r => Ok (inject_Z r - m)%Q
  | None => Raise TypeError
  end.

(** The three accumulators of the inner loop. *)
Record sums : Type := mkSums {
  numerator : Q;
  denominator1 : Q;
  denominator2 : Q
}.

Definition sums0 : sums := mkSums 0 0 0.

(** Body of [for customer_id, rating in worker_ratings.items()]. *)
Definition accumulate (ratings : Dict.t (option Z)) (item : Z * option Z)
           (acc : sums) : result sums :=
  let '(customer_id, rating) := item in
  match Dict.get customer_id ratings with
  | None => Ok acc                       (* [customer_id not in ratings] *)
  | Some their =>
      a <- deviation rating ratings ;;
      b <- deviation their ratings ;;
      let numerator' := (numerator acc + a * b)%Q in
      a <- deviation rating ratings ;;
      let denominator1' := (denominator1 acc + a ^ 2)%Q in
      b <- deviation their ratings ;;
      let denominator2' := (denominator2 acc + b ^ 2)%Q in
      Ok (mkSums numerator' denominator1' denominator2')
  end.

Definition correlate (worker_ratings ratings : Dict.t (option Z)) : result sums :=
  for_each (Dict.items worker_ratings) (accumulate ratings) sums0.

Definition is_zero (q : Q) : bool := Qeq_bool q 0.

(** [0 if denominator1 == 0 or denominator2 == 0
     else numerator / sqrt(denominator1 * denominator2)] *)
Definition similarity (s : sums) : R :=
  if is_zero (denominator1 s) || is_zero (denominator2 s) then 0%R
  else (Q2R (numerator s) / sqrt (Q2R (denominator1 s * denominator2 s)))%R.

(** The similarities are compared exactly, without extracting the root:
    [x / sqrt d] and [sign x * x ^ 2 / d] are ordered alike (lemma
    [similarity_lt_spec]). *)
Definition similarity_key (s : sums) : Q :=
  if is_zero (denominator1 s) || is_zero (denominator2 s) then 0%Q
  else
    let x := numerator s in
    let sq := (x * x / (denominator1 s * denominator2 s))%Q in
    if Qle_bool 0 x then sq else (- sq)%Q.

Definition similarity_lt (a b : Z * sums) : bool :=
  negb (Qle_bool (similarity_key (snd b)) (similarity_key (snd a))).

Definition pearson_correlation_coefficient
           (db : DB) (worker_id : Z) (available_workers : list Worker.t) (n : Z)
  : result (list Worker.t) :=
  let worker_ratings := ratings_of db worker_id in
  similarities <-
    for_each available_workers
      (fun worker similarities =>
         if negb (Worker.id worker =? worker_id) then
           let ratings := ratings_of db (Worker.id worker) in
           s <- correlate worker_ratings ratings ;;
           Ok (Dict.set (Worker.id worker) s similarities)
         else Ok similarities)
      [] ;;
  let similar_workers := sort_desc similarity_lt (Dict.items similarities) in
  for_each (slice_to n similar_workers)
    (fun '(worker_id, _) top_similar_workers =>
       worker <- get_worker db worker_id ;;
       Ok (top_similar_workers ++ [worker]))
    [].

(** *** The formula as the specification words it

    Over the customers [c] rated by both workers, with
    [m = mean(ratings_candidate)]:
    numerator [Σ (r_seed[c] - m) * (r_candidate[c] - m)], denominator
    [sqrt (Σ (r_seed[c] - m)² * Σ (r_candidate[c] - m)²)], and similarity 0
    when either sum of squares is 0.  Stated on ratings that are all
    present. *)
Definition shared (seed candidate : Dict.t Z) : list (Z * Z) :=
  flat_map (fun '(c, r) => match Dict.get c candidate with
                           | Some r' => [(r, r')]
                           | None => []
                           end) seed.

Definition Zsum (l : list Z) : Z := fold_right Z.add 0 l.
Definition Rsum (l : list R) : R := fold_right Rplus 0%R l.

Definition mean_candidate (candidate : Dict.t Z) : R :=
  (IZR (Zsum (Dict.values candidate)) / IZR (Dict.len candidate))%R.

Definition spec_numerator (seed candidate : Dict.t Z) : R :=
  let m := mean_candidate candidate in
  Rsum (map (fun '(r, r') => ((IZR r - m) * (IZR r' - m))%R) (shared seed candidate)).

Definition spec_squares_seed (seed candidate : Dict.t Z) : R :=
  let m := mean_candidate candidate in
  Rsum (map (fun '(r, _) => ((IZR r - m) ^ 2)%R) (shared seed candidate)).

Definition spec_squares_candidate (seed candidate : Dict.t Z) : R :=
  let m := mean_candidate candidate in
  Rsum (map (fun '(_, r') => ((IZR r' - m) ^ 2)%R) (shared seed candidate)).

Definition present (d : Dict.t Z) : Dict.t (option Z) :=
  map (fun '(c, r) => (c, Some r)) d.

Definition spec_similarity (seed candidate : Dict.t Z) : R :=
  let n := spec_numerator seed candidate in
  let d1 := spec_squares_seed seed candidate in
  let d2 := spec_squares_candidate seed candidate in
  if Req_dec_T d1 0 then 0%R
  else if Req_dec_T d2 0 then 0%R
  else (n / sqrt (d1 * d2))%R.

(** *** What the inner loop accumulates

    One pair of deviations per shared customer. *)
Definition add_pair (acc : sums) (p : Q * Q) : sums :=
  mkSums (numerator acc + fst p * snd p)
         (denominator1 acc + fst p ^ 2)
         (denominator2 acc + snd p ^ 2).

Definition mean_of (candidate : Dict.t Z) : Q :=
  (inject_Z (Zsum (Dict.values candidate)) / inject_Z (Dict.len candidate))%Q.

Definition deviations (seed candidate : Dict.t Z) : list (Q * Q) :=
  map (fun '(r, r') =>
         (inject_Z r - mean_of candidate, inject_Z r' - mean_of candidate)%Q)
      (shared seed candidate).

(** The Cauchy-Schwarz relation between the three accumulators. *)
Definition bounded (s : sums) : Prop :=
  (Q2R (numerator s) * Q2R (numerator s)
   <= Q2R (denominator1 s) * Q2R (denominator2 s))%R
  /\ (0 <= Q2R (denominator1 s))%R
  /\ (0 <= Q2R (denominator2 s))%R.

End Recommendations.

(** ** tasks/forms.py *)
Module Forms.

(** Cleaned data of a valid [TaskCreateForm]. *)
Record TaskCreateForm : Type := mkCreate {
  title : string;
  description : string;
  start_time : Z;
  end_time : Z;
  location : string
}.

(** [TaskStatusUpdateForm.STATUS_CHOICES] *)
Definition STATUS_CHOICES : list task_status :=
  [requested; in_progress; completed; rejected].

(** [valid_transitions[current_status]] *)
Definition valid_transitions (current_status : task_status)
  : result (list task_status) :=
  match current_status with
  | requested => Ok [in_progress; rejected]
  | in_progress => Ok [completed]
  | _ => Raise KeyError
  end.

Definition status_in (s : task_status) (l : list task_status) : bool :=
  existsb (status_eqb s) l.

(** [TaskStatusUpdateForm.__init__]: the choices left for the instance. *)
Definition init_choices (instance : Task.t) : result (list task_status) :=
  allowed <- valid_transitions (Task.status instance) ;;
  Ok (filter (fun choice => status_in choice allowed) STATUS_CHOICES).

End Forms.

(** ** tasks/views.py *)
Module Views.

Inductive flash : Type :=
| success (text : string)
| warning (text : string).

(** What a view hands back: the flash message, if any, and for the
    dispatch the user names it printed. *)
Record response : Type := mkResponse {
  messages : list flash;
  printed : list string
}.

(** A view ends with a response or an exception; in both cases the
    database is the one the view left behind (there is no transaction
    around a view). *)
Definition outcome : Type := result response * DB.

(** *** TaskCreateView.form_valid *)

(** Lines 53-66: the workers flagged available without an in-progress task
    that overlaps the window. *)
Definition available_workers (db : DB) (start_time end_time : Z) : list Worker.t :=
  let available_workers := filter Worker.is_available (workers db) in
  let conflicting_tasks :=
    filter (fun x =>
              existsb (fun w => pk_eqb (Task.worker x) (Some (Worker.id w)))
                      available_workers
              && status_eqb (Task.status x) in_progress
              && (Task.start_time x <? end_time)
              && (Task.end_time x >? start_time)) (tasks db) in
  let ids := flat_map (fun x => match Task.worker x with
                                | Some i => [i]
                                | None => []
                                end) conflicting_tasks in
  filter (fun w => negb (existsb (Z.eqb (Worker.id w)) ids)) available_workers.

(** The join of a worker with its task rows. *)
Definition tasks_of (db : DB) (w : Worker.t) : list Task.t :=
  filter (fun x => pk_eqb (Task.worker x) (Some (Worker.id w))) (tasks db).

(** [Avg("task__rating")]: the mean of the ratings that are not null, over
    all task rows of the worker; null when there is none. *)
Definition Avg_rating (db : DB) (w : Worker.t) : option Q :=
  let rs := flat_map (fun x => match Task.rating x with
                               | Some r => [r]
                               | None => []
                               end) (tasks_of db w) in
  match rs with
  | [] => None
  | _ => Some (inject_Z (Recommendations.Zsum rs)
               / inject_Z (Z.of_nat (List.length rs)))%Q
  end.

(** [Count("task", filter=Q(task__status="completed"))] *)
Definition tasks_completed (db : DB) (w : Worker.t) : Z :=
  Z.of_nat (List.length (filter (fun x => status_eqb (Task.status x) completed)
                                (tasks_of db w))).

(** A null average sorts below every number. *)
Definition rating_lt (a b : option Q) : bool :=
  match a, b with
  | None, Some _ => true
  | Some x, Some y => negb (Qle_bool y x)
  | _, None => false
  end.

Definition rating_eq (a b : option Q) : bool :=
  match a, b with
  | None, None => true
  | Some x, Some y => Qeq_bool x y
  | _, _ => false
  end.

(** [order_by("-tasks_completed", "-rating")]: [a] sorts below [b].  Rows
    that tie on both keys stay in table order. *)
Definition rank_lt (db : DB) (a b : Worker.t) : bool :=
  (tasks_completed db a <? tasks_completed db b)
  || ((tasks_completed db a =? tasks_completed db b)
      && rating_lt (Avg_rating db a) (Avg_rating db b)).

Definition order_by_rank (db : DB) (ws : list Worker.t) : list Worker.t :=
  sort_desc (rank_lt db) ws.

(** [available_workers.filter(skills__icontains=query)] *)
Definition matching_workers (query : string) (available : list Worker.t)
  : list Worker.t :=
  filter (fun w => icontains (Worker.skills w) query) available.

(** Lines 69-102: the workers the request goes to. *)
Definition related_workers (db : DB) (form : Forms.TaskCreateForm)
  : result (list Worker.t) :=
  let available := available_workers db (Forms.start_time form) (Forms.end_time form) in
  let query := Forms.title form in
  let matching := matching_workers query available in
  match matching with
  | _ :: _ =>
      Ok (firstn 5 (filter (fun w => icontains (Worker.skills w) query)
                           (order_by_rank db matching)))
  | [] =>
      match order_by_rank db available with       (* [.first()] *)
      | top_worker :: _ =>
          Recommendations.pearson_correlation_coefficient
            db (Worker.id top_worker) available 5
      | [] => Raise AttributeError                (* [None.id] *)
      end
  end.

(** [form.instance] of the create form: the draft. *)
Definition draft (form : Forms.TaskCreateForm) (customer : Z) : Task.t :=
  Task.mk None None customer None (Forms.title form) (Forms.description form)
          (Forms.start_time form) (Forms.end_time form) (Forms.location form)
          requested None EmptyString None None.

(** Lines 110-118: one row per related worker.  The loop works on the one
    instance of the form: [instance] is its state between iterations. *)
Fixpoint send_requests (request_id : string) (related : list Worker.t)
         (instance : Task.t) (names : list string) (db : DB)
  : Task.t * list string * DB :=
  match related with
  | [] => (instance, names, db)
  | worker :: rest =>
      let task := Task.set_pk None instance in
      let task := Task.set_worker (Some (Worker.id worker)) task in
      let task := Task.set_request_id (Some request_id) task in
      let task := Task.set_hourly_rate (Some (Worker.hourly_rate worker)) task in
      let '(task, db) := save task db in
      send_requests request_id rest task (names ++ [Worker.username worker]) db
  end.

Definition created_message : string := "Task created successfully!".
Definition no_match_message : string :=
  "No related workers found for the task request".

(** [customer] is [request.user.customer], [uuid] the value of
    [str(uuid.uuid4())].  The last step, [super().form_valid(form)], is
    [CreateView]'s: it saves the form's instance and redirects. *)
Definition task_create (form : Forms.TaskCreateForm) (customer : Z)
           (uuid : string) (db : DB) : outcome :=
  match related_workers db form with
  | Raise e => (Raise e, db)
  | Ok related =>
      let '(instance, top_five_workers, db) :=
        send_requests uuid related (draft form customer) [] db in
      let related_workers_count := Z.of_nat (List.length top_five_workers) in
      let r := if 0 <? related_workers_count
               then mkResponse [success created_message] top_five_workers
               else mkResponse [success no_match_message] [] in
      let '(_, db) := save instance db in
      (Ok r, db)
  end.

(** *** TaskUpdateView *)

(** Lines 170-173:
    [Decimal((end_time - start_time).total_seconds() / 3600) * hourly_rate].
    The difference of the two times is a [timedelta], a whole number of
    microseconds; [total_seconds()] divides it by [10**6] and the quotient
    is divided by 3600, both in binary floating point.  ([Z2float] is exact
    below [2^53] microseconds.) *)
Definition duration_hours (start_time end_time : Z) : PrimFloat.float :=
  let total_seconds :=
    PrimFloat.div (Z2float (end_time - start_time)) (Z2float 1000000) in
  PrimFloat.div total_seconds (Z2float 3600).

Definition compute_total_cost (start_time end_time : Z) (hourly_rate : Decimal.t)
  : option Decimal.t :=
  match Decimal.from_float (duration_hours start_time end_time) with
  | Some hours => Some (Decimal.mul hours hourly_rate)
  | None => None
  end.

(** [Task.objects.filter(request_id=task.request_id).exclude(id=task.id)
     .update(status="vanished")] *)
Definition vanish_others (task : Task.t) (db : DB) : DB :=
  set_tasks
    (map (fun y =>
            if request_id_eqb (Task.request_id y) (Task.request_id task)
               && negb (pk_eqb (Task.pk y) (Task.pk task))
            then Task.set_status vanished y else y)
         (tasks db)) db.

(** [get_form]: the choices of the status field. *)
Definition get_form (task : Task.t) (from_requested : bool)
  : result (list task_status) :=
  choices <- Forms.init_choices task ;;
  if from_requested then Ok [in_progress; rejected]
  else if status_eqb (Task.status task) in_progress then Ok [completed]
  else Ok choices.

Definition accepted_text (username title : string) : string :=
  ("Worker - " ++ username ++ " has accepted the task:'" ++ title ++ "'")%string.
Definition completed_text (username title : string) : string :=
  ("Worker - " ++ username ++ " has completed the task:'" ++ title ++ "'")%string.
Definition rejected_text (username title : string) : string :=
  ("Worker - " ++ username ++ " has rejected the task:'" ++ title ++ "'")%string.

(** [task.worker.user.username] *)
Definition worker_username (db : DB) (task : Task.t) : result string :=
  match Task.worker task with
  | None => Raise AttributeError
  | Some id => w <- get_worker db id ;; Ok (Worker.username w)
  end.

(** [form_valid], lines 161-210.  [task] is the form's instance with the
    posted status; [user_worker] is [request.user.worker], absent for a
    user without worker profile.  [replace(tzinfo=None)] drops the zone of
    the two times and keeps their clock values: the window is unchanged. *)
Definition form_valid (task : Task.t) (user_worker : option Worker.t) (db : DB)
  : outcome :=
  match Task.status task with
  | in_progress =>
      match user_worker with
      | None => (Raise DoesNotExist, db)
      | Some worker =>
          let task := Task.set_worker (Some (Worker.id worker)) task in
          let task := Task.set_hourly_rate (Some (Worker.hourly_rate worker)) task in
          let task :=
            Task.set_total_cost
              (compute_total_cost (Task.start_time task) (Task.end_time task)
                                  (Worker.hourly_rate worker)) task in
          let '(task, db) := save task db in
          let db := vanish_others task db in
          let db :=
            create_notification
              (TaskNotification.mk (Task.pk task)
                 (accepted_text (Worker.username worker) (Task.title task))
                 (Task.customer task))
              db in
          let '(_, db) := save task db in         (* [super().form_valid(form)] *)
          (Ok (mkResponse [] []), db)
      end
  | s =>
      let '(task, db) := save task db in
      let notify (flash_text : string) (text : string -> string -> string) :=
        match worker_username db task with
        | Raise e => (Raise e, db)
        | Ok name =>
            let db :=
              create_notification
                (TaskNotification.mk (Task.pk task)
                   (text name (Task.title task)) (Task.customer task))
                db in
            let '(_, db) := save task db in
            (Ok (mkResponse [success flash_text] []), db)
        end in
      match s with
      | completed =>
          notify "Task status set to completed successfully."%string completed_text
      | rejected =>
          notify "Task status set to rejected successfully."%string rejected_text
      | _ => let '(_, db) := save task db in (Ok (mkResponse [] []), db)
      end
  end.

(** A POST to [<pk>/update/]: fetch the object, build the form, validate
    the posted status against the choices, then [form_valid]; an invalid
    form is shown again and nothing is written. *)
Definition task_update (pk : Z) (posted : task_status) (from_requested : bool)
           (user_worker : option Worker.t) (db : DB) : outcome :=
  match get_object_or_404 db pk with
  | Raise e => (Raise e, db)
  | Ok task =>
      match get_form task from_requested with
      | Raise e => (Raise e, db)
      | Ok choices =>
          if Forms.status_in posted choices
          then form_valid (Task.set_status posted task) user_worker db
          else (Ok (mkResponse [] []), db)
      end
  end.

(** *** The function views, lines 342-377 *)

Definition task_accept (pk : Z) (user_worker : option Worker.t) (db : DB)
  : outcome :=
  match get_object_or_404 db pk with
  | Raise e => (Raise e, db)
  | Ok task =>
      match Task.worker task with
      | Some _ =>
          (Ok (mkResponse [warning "Task is already assigned to a worker."] []), db)
      | None =>
          match user_worker with
          | None => (Raise DoesNotExist, db)
          | Some worker =>
              let task := Task.set_worker (Some (Worker.id worker)) task in
              let task := Task.set_status in_progress task in
              let '(_, db) := save task db in
              (Ok (mkResponse [success "Task accepted successfully."] []), db)
          end
      end
  end.

Definition task_reject (pk : Z) (db : DB) : outcome :=
  match get_object_or_404 db pk with
  | Raise e => (Raise e, db)
  | Ok task =>
      match Task.worker task with
      | Some _ =>
          let task := Task.set_worker None task in
          let task := Task.set_status requested task in
          let '(_, db) := save task db in
          (Ok (mkResponse [success "Task rejected successfully."] []), db)
      | None =>
          (Ok (mkResponse [warning "Task is not assigned to any worker."] []), db)
      end
  end.

Definition task_complete (pk : Z) (user_worker : option Worker.t) (db : DB)
  : outcome :=
  match get_object_or_404 db pk with
  | Raise e => (Raise e, db)
  | Ok task =>
      let not_yours :=
        (Ok (mkResponse [warning "Task is not assigned to you."] []), db) in
      match Task.worker task with
      | None => not_yours
      | Some id =>
          match user_worker with
          | None => (Raise DoesNotExist, db)
          | Some worker =>
              if id =? Worker.id worker then
                let task := Task.set_status completed task in
                let '(_, db) := save task db in
                (Ok (mkResponse [success "Task completed successfully."] []), db)
              else not_yours
          end
      end
  end.

End Views.

(** ** Requests

    The acceptance, completion and rejection operations as a trace of
    requests against the database. *)
Inductive request : Type :=
| Update (pk : Z) (posted : task_status) (from_requested : bool)
         (user_worker : option Worker.t)
| Accept (pk : Z) (user_worker : option Worker.t)
| Reject (pk : Z)
| Complete (pk : Z) (user_worker : option Worker.t).

Definition handle (r : request) (db : DB) : Views.outcome :=
  match r with
  | Update pk posted from_requested user_worker =>
      Views.task_update pk posted from_requested user_worker db
  | Accept pk user_worker => Views.task_accept pk user_worker db
  | Reject pk => Views.task_reject pk db
  | Complete pk user_worker => Views.task_complete pk user_worker db
  end.

Definition run (rs : list request) (db : DB) : DB :=
  fold_left (fun db r => snd (handle r db)) rs db.

Definition is_update (r : request) : bool :=
  match r with Update _ _ _ _ => true | _ => false end.

(** The rows of one request group and the status of a row. *)
Definition group (g : option string) (db : DB) : list Task.t :=
  filter (fun x => request_id_eqb (Task.request_id x) g) (tasks db).

Definition status_of (pk : Z) (db : DB) : option task_status :=
  option_map Task.status (find (fun y => pk_eqb (Task.pk y) (Some pk)) (tasks db)).


Definition row (pk : Z) (db : DB) : option Task.t :=
  find (fun y => pk_eqb (Task.pk y) (Some pk)) (tasks db).

(** The cost the specification asks for: the duration in hours times the
    rate, as an exact number. *)
Definition exact_total_cost (start_time end_time : Z) (hourly_rate : Decimal.t) : Q :=
  (inject_Z (end_time - start_time) / inject_Z 3600000000 * Decimal.value hourly_rate)%Q.

(** Every completed task of the worker carries a rating. *)
Definition rated (db : DB) (worker_id : Z) : Prop :=
  forall x, In x (tasks db) ->
            Task.worker x = Some worker_id ->
            Task.status x = completed ->
            Task.rating x <> None.

(** ** Request groups *)

(** What a status update does to a row [y] when the saved instance is [x]:
    the row of [x] becomes [x]; on an acceptance the other rows of its
    request group vanish. *)
Definition update_row (x : Task.t) (accepting : bool) (y : Task.t) : Task.t :=
  if pk_eqb (Task.pk y) (Task.pk x) then x
  else if accepting && request_id_eqb (Task.request_id y) (Task.request_id x)
       then Task.set_status vanished y
       else y.

Definition unique_keys (db : DB) : Prop := NoDup (map Task.pk (tasks db)).

(** Nobody has accepted: every member is requested or rejected. *)
Definition open_group (g : option string) (db : DB) : Prop :=
  forall y, In y (group g db) ->
            Task.status y = requested \/ Task.status y = rejected.

(** The group went to the row with key [p]: every other member is vanished. *)
Definition resolved (g : option string) (p : option Z) (db : DB) : Prop :=
  forall y, In y (group g db) -> Task.pk y <> p -> Task.status y = vanished.

(** The statuses the specification counts as reached. *)
Definition settled (s : task_status) : bool :=
  match s with
  | in_progress | completed | rejected => true
  | _ => false
  end.

(** The invariant as the specification words it: at most one member of the
    group is in progress, completed or rejected. *)
Definition at_most_one_settled (g : option string) (db : DB) : Prop :=
  forall x y, In x (group g db) -> In y (group g db) ->
              settled (Task.status x) = true ->
              settled (Task.status y) = true ->
              Task.pk x = Task.pk y.


(** ** Primary keys

    The task table hands out its keys from [next_pk]: the keys in the table
    are distinct and below it. *)
Definition keys_below (db : DB) : Prop :=
  forall y, In y (tasks db) -> exists p, Task.pk y = Some p /\ p < next_pk db.

Definition well_keyed (db : DB) : Prop := unique_keys db /\ keys_below db.

(** ** The rows of a dispatch

    The row saved for the candidate [worker] under key [pk]: the draft with
    the worker, the worker's rate and the request identifier. *)
Definition request_row (form : Forms.TaskCreateForm) (customer : Z) (uuid : string)
           (pk : Z) (worker : Worker.t) : Task.t :=
  Task.mk (Some pk) (Some uuid) customer (Some (Worker.id worker))
          (Forms.title form) (Forms.description form)
          (Forms.start_time form) (Forms.end_time form) (Forms.location form)
          requested None EmptyString (Some (Worker.hourly_rate worker)) None.

Fixpoint request_rows (form : Forms.TaskCreateForm) (customer : Z) (uuid : string)
         (pk : Z) (related : list Worker.t) : list Task.t :=
  match related with
  | [] => []
  | worker :: rest =>
      request_row form customer uuid pk worker
      :: request_rows form customer uuid (pk + 1) rest
  end.

(** ** tasks/views.py, continued *)
Module Listing.

(** The lists [TaskListView.get_context_data] puts in the context. *)
Record context : Type := mkContext {
  requested_tasks : list Task.t;
  rejected_tasks : list Task.t;
  completed_tasks : list Task.t;
  in_progress_tasks : list Task.t
}.

(** [Task.objects.filter(customer=customer, status=status)] *)
Definition of_customer (db : DB) (customer : Z) (s : task_status) : list Task.t :=
  filter (fun x => (Task.customer x =? customer) && status_eqb (Task.status x) s)
         (tasks db).

(** [Task.objects.filter(worker=worker, status=status)] *)
Definition of_worker (db : DB) (worker : Z) (s : task_status) : list Task.t :=
  filter (fun x => pk_eqb (Task.worker x) (Some worker)
                   && status_eqb (Task.status x) s) (tasks db).

(** Lines 307-312: the loop that keeps one requested task per request
    identifier, [request_ids] and [unique_requested_tasks] being its two
    lists. *)
Fixpoint unique_loop (requested : list Task.t) (request_ids : list (option string))
         (unique_requested_tasks : list Task.t) : list Task.t :=
  match requested with
  | [] => unique_requested_tasks
  | task :: rest =>
      if existsb (request_id_eqb (Task.request_id task)) request_ids
      then unique_loop rest request_ids unique_requested_tasks
      else unique_loop rest (request_ids ++ [Task.request_id task])
                       (unique_requested_tasks ++ [task])
  end.

Definition unique_requested_tasks (db : DB) (customer : Z) : list Task.t :=
  unique_loop (of_customer db customer requested) [] [].

(** The branch [user.is_customer], lines 303-324. *)
Definition customer_context (db : DB) (customer : Z) : context :=
  mkContext (unique_requested_tasks db customer)
            (of_customer db customer rejected)
            (of_customer db customer completed)
            (of_customer db customer in_progress).

(** The branch [user.is_worker], lines 325-338. *)
Definition worker_context (db : DB) (worker : Z) : context :=
  mkContext (of_worker db worker requested)
            (of_worker db worker rejected)
            (of_worker db worker completed)
            (of_worker db worker in_progress).

End Listing.

Module Rating.

(** What a request to [<pk>/rate/] carries: the method ([GET] stands for
    every method other than POST) and, for a POST, the two posted fields.
    The rating is the number the integer column stores, absent when the
    field is not posted; the review text is posted. *)
Inductive method : Type :=
| GET
| POST (rating : option Z) (review : string).

(** What [task_rate] answers with. *)
Inductive answer : Type :=
| redirected (message : Views.flash)
| rendered (template : string).

(** Lines 380-398.  [user_customer] is the customer profile of
    [request.user], if it has one: [task.customer.user == request.user]
    holds when that profile is the task's customer. *)
Definition task_rate (pk : Z) (m : method) (user_customer : option Z) (db : DB)
  : result answer * DB :=
  match get_object_or_404 db pk with
  | Raise e => (Raise e, db)
  | Ok task =>
      if status_eqb (Task.status task) completed
         && pk_eqb (Some (Task.customer task)) user_customer
      then
        match m with
        | POST rating review =>
            let task :=
              Task.mk (Task.pk task) (Task.request_id task) (Task.customer task)
                      (Task.worker task) (Task.title task) (Task.description task)
                      (Task.start_time task) (Task.end_time task)
                      (Task.location task) (Task.status task) rating review
                      (Task.hourly_rate task) (Task.total_cost task) in
            let '(_, db) := save task db in
            (Ok (redirected (Views.success "Task rated successfully.")), db)
        | GET =>
            match Task.rating task with
            | Some _ => (Ok (rendered "tasks/task_rating.html"), db)
            | None => (Ok (rendered "tasks/task_rate.html"), db)
            end
        end
      else
        (Ok (redirected
               (Views.warning "Task is not completed or not assigned to you.")),
         db)
  end.

End Rating.

(** The request trace with dispatches and ratings. *)
Inductive event : Type :=
| Request (r : request)
| Create (form : Forms.TaskCreateForm) (customer : Z) (uuid : string)
| Rate (pk : Z) (m : Rating.method) (user_customer : option Z).

Definition apply_event (e : event) (db : DB) : DB :=
  match e with
  | Request r => snd (handle r db)
  | Create form customer uuid => snd (Views.task_create form customer uuid db)
  | Rate pk m user_customer => snd (Rating.task_rate pk m user_customer db)
  end.

Definition replay (es : list event) (db : DB) : DB :=
  fold_left (fun db e => apply_event e db) es db.

(** ** Sorted lists: every element is not below the ones after it. *)
Definition sorted_desc {A : Type} (lt : A -> A -> bool) (l : list A) : Prop :=
  ForallOrdPairs (fun a b => lt a b = false) l.

(** [row] in a list of rows. *)
Definition last_with (c : Z) (l : list Task.t) : option Task.t :=
  find (fun x => Task.customer x =? c) (rev l).

(** ** The ranking inside the recommender

    Lines 15-46 of [pearson_correlation_coefficient]: the similarities of
    the other available workers, sorted; the function then looks up the
    workers of the first [n] entries (lemma [pearson_by_ranking]). *)
Definition ranking (db : DB) (worker_id : Z) (available_workers : list Worker.t)
  : result (list (Z * Recommendations.sums)) :=
  let worker_ratings := Recommendations.ratings_of db worker_id in
  similarities <-
    for_each available_workers
      (fun worker similarities =>
         if negb (Worker.id worker =? worker_id) then
           let ratings := Recommendations.ratings_of db (Worker.id worker) in
           s <- Recommendations.correlate worker_ratings ratings ;;
           Ok (Dict.set (Worker.id worker) s similarities)
         else Ok similarities)
      [] ;;
  Ok (sort_desc Recommendations.similarity_lt (Dict.items similarities)).

(** The workers of the entries [l], in order. *)
Definition lookup_workers (db : DB) (l : list (Z * Recommendations.sums))
  : result (list Worker.t) :=
  for_each l
    (fun '(worker_id, _) top_similar_workers =>
       worker <- get_worker db worker_id ;;
       Ok (top_similar_workers ++ [worker]))
    [].

(** The body of the loop over the available workers, lines 17-43. *)
Definition similarity_step (db : DB) (worker_id : Z) (worker : Worker.t)
           (similarities : Dict.t Recommendations.sums)
  : result (Dict.t Recommendations.sums) :=
  if negb (Worker.id worker =? worker_id) then
    s <- Recommendations.correlate (Recommendations.ratings_of db worker_id)
                                   (Recommendations.ratings_of db (Worker.id worker)) ;;
    Ok (Dict.set (Worker.id worker) s similarities)
  else Ok similarities.

(** The draft with the four fields the dispatch loop assigns. *)
Definition draft_like (form : Forms.TaskCreateForm) (customer : Z)
           (pk : option Z) (request_id : option string) (worker : option Z)
           (hourly_rate : option Decimal.t) : Task.t :=
  Task.mk pk request_id customer worker
          (Forms.title form) (Forms.description form)
          (Forms.start_time form) (Forms.end_time form) (Forms.location form)
          requested None EmptyString hourly_rate None.

(** What never changes in a row: its key and its request identifier. *)
Definition identity (y : Task.t) : option Z * option string :=
  (Task.pk y, Task.request_id y).

(** * Concrete databases and requests *)

Module AvailabilityExample.
Local Open Scope string_scope.

Definition rate : Decimal.t := Decimal.mk 2000 (-2).
Definition busy : Worker.t := Worker.mk 1 "busy" "cleaning" rate true.

Definition job (pk start_time end_time : Z) : Task.t :=
  Task.mk (Some pk) (Some "r") 7 (Some 1) "cleaning" "" start_time end_time ""
          in_progress None "" (Some rate) None.

(** Two disjoint in-progress tasks, [[7,9)] and [[9,11)]. *)
Definition db : DB := mkDB [busy] [job 2 9 11; job 1 7 9] [] 3.
End AvailabilityExample.

(** Two workers with the skill fields and records of the specification's
    skill-matching scenario: three completed tasks rated 5, 4 and unrated
    (average 4.5), and five completed tasks rated 4 (average 4.0). *)
Module SkillExample.
Local Open Scope string_scope.

Definition rate : Decimal.t := Decimal.mk 2000 (-2).
Definition cleaner : Worker.t := Worker.mk 1 "anna" "cleaning" rate true.
Definition cook : Worker.t := Worker.mk 2 "bob" "cleaning, cooking" rate true.

Definition done (pk worker customer : Z) (rating : option Z) : Task.t :=
  Task.mk (Some pk) None customer (Some worker) "chores" "" 0 10 ""
          completed rating "" (Some rate) None.

Definition db : DB :=
  mkDB [cleaner; cook]
       [done 8 2 15 (Some 4); done 7 2 14 (Some 4); done 6 2 13 (Some 4);
        done 5 2 12 (Some 4); done 4 2 11 (Some 4);
        done 3 1 23 None; done 2 1 22 (Some 4); done 1 1 21 (Some 5)]
       [] 9.

Definition form (title : string) : Forms.TaskCreateForm :=
  Forms.mkCreate title "two rooms" 100 200 "kathmandu".
End SkillExample.

(** One available worker whose skills do not match the title: the
    recommender has nobody but the seed. *)
Module NoMatchExample.
Local Open Scope string_scope.

Definition solo : Worker.t :=
  Worker.mk 1 "solo" "plumbing" (Decimal.mk 1000 (-2)) true.
Definition db : DB := mkDB [solo] [] [] 1.
Definition form : Forms.TaskCreateForm :=
  Forms.mkCreate "cleaning" "two rooms" 100 200 "kathmandu".
End NoMatchExample.

(** Nobody is flagged available. *)
Module NobodyExample.
Local Open Scope string_scope.

Definition away : Worker.t :=
  Worker.mk 1 "away" "cleaning" (Decimal.mk 1000 (-2)) false.
Definition db : DB := mkDB [away] [] [] 1.
Definition form : Forms.TaskCreateForm :=
  Forms.mkCreate "cleaning" "two rooms" 100 200 "kathmandu".
End NobodyExample.

(** Times of 2023-05-01, in microseconds since the epoch. *)
Module CostExample.
Local Open Scope string_scope.

Definition t0800 : Z := 1682928000000000.
Definition t1000 : Z := 1682935200000000.

Definition rate : Decimal.t := Decimal.mk 2000 (-2).      (* 20.00 *)
Definition w : Worker.t := Worker.mk 1 "w" "cleaning" rate true.

Definition asked (end_time : Z) : Task.t :=
  Task.mk (Some 1) (Some "r") 7 (Some 1) "cleaning" "" t0800 end_time ""
          requested None "" (Some rate) None.

Definition db (end_time : Z) : DB := mkDB [w] [asked end_time] [] 2.
End CostExample.

(** A request group of two: one row per notified worker. *)
Module GroupExample.
Local Open Scope string_scope.

Definition rate : Decimal.t := Decimal.mk 2000 (-2).
Definition w1 : Worker.t := Worker.mk 1 "anna" "cleaning" rate true.
Definition w2 : Worker.t := Worker.mk 2 "bob" "cleaning" rate true.

Definition asked (pk worker : Z) : Task.t :=
  Task.mk (Some pk) (Some "r") 7 (Some worker) "cleaning" "" 100 200 ""
          requested None "" (Some rate) None.

Definition db : DB := mkDB [w1; w2] [asked 2 2; asked 1 1] [] 3.

(** The first row accepted by its worker through the status form. *)
Definition accepted : DB :=
  snd (Views.task_update 1 in_progress false (Some w1) db).

(** The accepted row. *)
Definition winner : Task.t :=
  Eval vm_compute in
    match row 1 accepted with
    | Some t => t
    | None => asked 1 1
    end.
End GroupExample.

(** The rating histories of the specification's similarity scenario:
    customers A and B are 1 and 2. *)
Module SimilarityExample.
Definition seed : Dict.t Z := [(1, 5); (2, 3)].
Definition candidate : Dict.t Z := [(1, 4); (2, 2)].
End SimilarityExample.

(** The same histories as completed tasks of two workers; in [unrated_db]
    the candidate's task for customer 2 has no rating yet. *)
Module RatingExample.
Local Open Scope string_scope.

Definition rate : Decimal.t := Decimal.mk 2000 (-2).
Definition seed : Worker.t := Worker.mk 1 "anna" "cleaning" rate true.
Definition candidate : Worker.t := Worker.mk 2 "bob" "cooking" rate true.

Definition done (pk worker customer : Z) (rating : option Z) : Task.t :=
  Task.mk (Some pk) None customer (Some worker) "chores" "" 0 10 ""
          completed rating "" (Some rate) None.

Definition db : DB :=
  mkDB [seed; candidate]
       [done 4 2 2 (Some 2); done 3 2 1 (Some 4);
        done 2 1 2 (Some 3); done 1 1 1 (Some 5)] [] 5.

Definition unrated : Task.t := done 4 2 2 None.

Definition unrated_db : DB :=
  mkDB [seed; candidate]
       [unrated; done 3 2 1 (Some 4);
        done 2 1 2 (Some 3); done 1 1 1 (Some 5)] [] 5.
End RatingExample.

(** A draft no worker was found for: the row the create view saves. *)
Module DraftExample.
Local Open Scope string_scope.

Definition w : Worker.t := Worker.mk 1 "solo" "plumbing" (Decimal.mk 1000 (-2)) true.
Definition unassigned : Task.t :=
  Task.mk (Some 1) None 7 None "cleaning" "two rooms" 100 200 "kathmandu"
          requested None "" None None.
Definition db : DB := mkDB [w] [unassigned] [] 2.
End DraftExample.

(** A completed task of customer 7, done by worker 1, not rated yet. *)
Module DoneExample.
Local Open Scope string_scope.

Definition w : Worker.t := Worker.mk 1 "anna" "cleaning" (Decimal.mk 2000 (-2)) true.
Definition other : Worker.t := Worker.mk 2 "bob" "cleaning" (Decimal.mk 2000 (-2)) true.
Definition finished : Task.t :=
  Task.mk (Some 1) (Some "r") 7 (Some 1) "cleaning" "two rooms" 100 200 "kathmandu"
          completed None "" (Some (Decimal.mk 2000 (-2))) (Some (Decimal.mk 4000 (-2))).
Definition db : DB := mkDB [w; other] [finished] [] 2.
End DoneExample.

(** Two drafts without request identifier, of two customers, and a
    dispatched row of a third. *)
Module OrphanExample.
Local Open Scope string_scope.

Definition w : Worker.t := Worker.mk 1 "anna" "cleaning" (Decimal.mk 2000 (-2)) true.
Definition draft (pk customer : Z) : Task.t :=
  Task.mk (Some pk) None customer None "cleaning" "two rooms" 100 200 "kathmandu"
          requested None "" None None.
Definition sent : Task.t :=
  Task.mk (Some 3) (Some "r") 9 (Some 1) "cooking" "" 100 200 ""
          requested None "" (Some (Decimal.mk 2000 (-2))) None.
Definition db : DB := mkDB [w] [sent; draft 2 8; draft 1 7] [] 4.
End OrphanExample.

(** Three available workers without the skill asked for; the first has the
    most completed tasks. *)
Module FallbackExample.
Local Open Scope string_scope.

Definition rate : Decimal.t := Decimal.mk 2000 (-2).
Definition a : Worker.t := Worker.mk 1 "anna" "plumbing" rate true.
Definition b : Worker.t := Worker.mk 2 "bob" "cooking" rate true.
Definition c : Worker.t := Worker.mk 3 "carl" "gardening" rate true.

Definition done (pk worker customer : Z) (rating : Z) : Task.t :=
  Task.mk (Some pk) None customer (Some worker) "chores" "" 0 10 ""
          completed (Some rating) "" (Some rate) None.

Definition db : DB :=
  mkDB [a; b; c]
       [done 5 3 2 4; done 4 2 2 2; done 3 2 1 4; done 2 1 2 3; done 1 1 1 5]
       [] 6.

Definition form : Forms.TaskCreateForm :=
  Forms.mkCreate "cleaning" "two rooms" 100 200 "kathmandu".
End FallbackExample.

(** * Properties *)

(** ** Equality tests *)

Lemma pk_eqb_eq (a b : option Z) : pk_eqb a b = true <-> a = b.
Proof.
  destruct a as [x|], b as [y|]; simpl; try (split; congruence).
  rewrite Z.eqb_eq. split; congruence.
Qed.


Lemma request_id_eqb_eq (a b : option string) : request_id_eqb a b = true <-> a = b.
Proof.
  destruct a as [x|], b as [y|]; simpl; try (split; congruence).
  rewrite String.eqb_eq. split; congruence.
Qed.

Lemma status_eqb_eq (a b : task_status) : status_eqb a b = true <-> a = b.
Proof. destruct a, b; simpl; split; congruence. Qed.

(** ** The availability filter (C8) *)

Lemma conflicting_ids (l : list Task.t) (i : Z) :
  In i (flat_map (fun x => match Task.worker x with
                           | Some i => [i]
                           | None => []
                           end) l)
  <-> exists x, In x l /\ Task.worker x = Some i.
Proof.
  rewrite in_flat_map. split; intros [x [Hx H]]; exists x; split; trivial.
  - destruct (Task.worker x); simpl in H; [|easy]. destruct H; [congruence|easy].
  - rewrite H. now left.
Qed.

(** C8.  A worker flagged available is kept by the availability filter
    exactly when none of its in-progress tasks overlaps the window, the
    overlap test being [existing.start < end] and [existing.end > start];
    hence a worker all of whose in-progress tasks end by [start] or begin at
    or after [end] (windows that only touch, several disjoint tasks) stays
    eligible. *)
Theorem availability_filter_iff (db : DB) (start_time end_time : Z) (w : Worker.t) :
  In w (workers db) ->
  Worker.is_available w = true ->
  (In w (Views.available_workers db start_time end_time) <->
   ~ exists x, In x (tasks db)
               /\ Task.worker x = Some (Worker.id w)
               /\ Task.status x = in_progress
               /\ Task.start_time x < end_time
               /\ Task.end_time x > start_time)
  /\ ((forall x, In x (tasks db) ->
                 Task.worker x = Some (Worker.id w) ->
                 Task.status x = in_progress ->
                 Task.end_time x <= start_time \/ end_time <= Task.start_time x) ->
      In w (Views.available_workers db start_time end_time)).
Proof.
  intros Hw Ha.
  assert (Hiff : In w (Views.available_workers db start_time end_time) <->
                 ~ exists x, In x (tasks db)
                             /\ Task.worker x = Some (Worker.id w)
                             /\ Task.status x = in_progress
                             /\ Task.start_time x < end_time
                             /\ Task.end_time x > start_time).
  { unfold Views.available_workers.
    rewrite filter_In, filter_In, negb_true_iff.
    split.
    - intros [_ Hn] [x [Hx [Hxw [Hs [H1 H2]]]]].
      apply not_true_iff_false in Hn. apply Hn.
      apply existsb_exists. exists (Worker.id w). split; [|apply Z.eqb_refl].
      apply conflicting_ids. exists x. split; trivial.
      apply filter_In. split; trivial.
      rewrite !andb_true_iff. repeat split.
      + apply existsb_exists. exists w. split.
        * apply filter_In. now split.
        * now apply pk_eqb_eq.
      + now apply status_eqb_eq.
      + now apply Z.ltb_lt.
      + now apply Z.gtb_gt.
    - intros Hn. split; [now split|].
      apply not_true_iff_false. intros He. apply Hn.
      apply existsb_exists in He. destruct He as [i [Hi Heq]].
      apply Z.eqb_eq in Heq. subst i.
      apply conflicting_ids in Hi. destruct Hi as [x [Hx Hxw]].
      apply filter_In in Hx. destruct Hx as [Hx Hc].
      rewrite !andb_true_iff in Hc. destruct Hc as [[[_ Hs] H1] H2].
      exists x. repeat split; trivial.
      + now apply status_eqb_eq.
      + now apply Z.ltb_lt.
      + now apply Z.gtb_gt. }
  split; [exact Hiff|].
  intros Hfree. apply Hiff. intros [x [Hx [Hxw [Hs [H1 H2]]]]].
  destruct (Hfree x Hx Hxw Hs); lia.
Qed.

(** The window [[11,13)] touches [[9,11)] at an end point only: the worker,
    who has two disjoint in-progress tasks, is kept; the window [[10,12)]
    overlaps and excludes the worker. *)
Lemma availability_filter_touching :
  In AvailabilityExample.busy
     (Views.available_workers AvailabilityExample.db 11 13)
  /\ ~ In AvailabilityExample.busy
          (Views.available_workers AvailabilityExample.db 10 12).
Proof.
  assert (Hw : In AvailabilityExample.busy (workers AvailabilityExample.db))
    by (simpl; auto).
  assert (Ha : Worker.is_available AvailabilityExample.busy = true)
    by reflexivity.
  split.
  - apply (proj2 (availability_filter_iff AvailabilityExample.db 11 13
                    AvailabilityExample.busy Hw Ha)).
    simpl. intros x [Hx | [Hx | []]] _ _; subst x; simpl; lia.
  - intros Hin.
    apply (proj1 (proj1 (availability_filter_iff AvailabilityExample.db 10 12
                           AvailabilityExample.busy Hw Ha))) in Hin.
    apply Hin. exists (AvailabilityExample.job 2 9 11).
    simpl. repeat split; auto; lia.
Defined.

(** ** The skill matcher (C5) *)

(** C5, as stated, fails: with the title "need cleaning help" as the query
    neither skill field contains the query, so no worker matches. *)
Lemma skill_matcher_title_not_contained :
  Views.matching_workers "need cleaning help"
    (Views.available_workers SkillExample.db 100 200) = []
  /\ icontains (Worker.skills SkillExample.cleaner) "need cleaning help" = false
  /\ icontains (Worker.skills SkillExample.cook) "need cleaning help" = false.
Proof. repeat split; reflexivity. Qed.

(** C5, amended.  With the title "cleaning" both workers match (their skill
    fields contain the query, case-insensitively), they have 3 and 5
    completed tasks and average ratings 4.5 and 4.0, and the ranking places
    the worker with 5 completed tasks first. *)
Theorem skill_matcher_ranks_by_completed :
  Views.matching_workers "Cleaning"
    (Views.available_workers SkillExample.db 100 200)
  = [SkillExample.cleaner; SkillExample.cook]
  /\ Views.tasks_completed SkillExample.db SkillExample.cleaner = 3
  /\ Views.tasks_completed SkillExample.db SkillExample.cook = 5
  /\ Views.Avg_rating SkillExample.db SkillExample.cleaner = Some (9 # 2)
  /\ Views.Avg_rating SkillExample.db SkillExample.cook = Some (20 # 5)
  /\ Views.related_workers SkillExample.db (SkillExample.form "Cleaning")
     = Ok [SkillExample.cook; SkillExample.cleaner].
Proof. repeat split; reflexivity. Qed.

(** ** Dispatch without candidates (C2, C6) *)





(** C6.  With nobody available the skill matcher finds nothing, the seed
    query [.first()] returns [None] and [top_worker.id] raises: the dispatch
    ends in an [AttributeError], not in the no-match outcome.  The database
    is left as it was. *)
Theorem dispatch_without_available_workers
        (db : DB) (form : Forms.TaskCreateForm) (customer : Z) (uuid : string) :
  Views.available_workers db (Forms.start_time form) (Forms.end_time form) = [] ->
  Views.task_create form customer uuid db = (Raise AttributeError, db).
Proof.
  intros H. unfold Views.task_create, Views.related_workers.
  rewrite H. reflexivity.
Qed.

Lemma dispatch_without_available_workers_example :
  Views.task_create NobodyExample.form 7 "u" NobodyExample.db
  = (Raise AttributeError, NobodyExample.db).
Proof.
  apply (dispatch_without_available_workers NobodyExample.db NobodyExample.form 7 "u").
  reflexivity.
Defined.

(** ** The cost of an accepted task (C4) *)

(** Two hours at 20.00 cost 40.00 exactly: two hours is a binary fraction. *)
Lemma total_cost_two_hours :
  Views.compute_total_cost CostExample.t0800 CostExample.t1000 CostExample.rate
  = Some (Decimal.mk 4000 (-2))
  /\ option_map Task.total_cost
       (row 1 (snd (Views.task_update 1 in_progress false (Some CostExample.w)
                                      (CostExample.db CostExample.t1000))))
     = Some (Some (Decimal.mk 4000 (-2)))
  /\ (Decimal.value (Decimal.mk 4000 (-2))
      == exact_total_cost CostExample.t0800 CostExample.t1000 CostExample.rate)%Q.
Proof. repeat split; vm_compute; reflexivity. Qed.


(** ** Acceptance of a task that is not open (C7) *)


(** Through the status form with [from_requested=true] a task in progress
    is accepted again, by another worker. *)
Lemma reaccept_through_form_rebinds_worker :
  option_map Task.worker (row 1 GroupExample.accepted) = Some (Some 1)
  /\ option_map Task.worker
       (row 1 (snd (Views.task_update 1 in_progress true (Some GroupExample.w2)
                                      GroupExample.accepted)))
     = Some (Some 2).
Proof. split; reflexivity. Qed.



(** ** The similarity of two rating histories (C3, C9) *)

Section Similarity.
Import Recommendations.


Lemma Q2R_square (q : Q) : Q2R (q ^ 2) = (Q2R q * Q2R q)%R.
Proof. change (q ^ 2)%Q with (q * q)%Q. apply Q2R_mult. Qed.

Lemma Q2R_zero : Q2R 0 = 0%R.
Proof. unfold Q2R. simpl. field. Qed.

Lemma is_zero_iff (q : Q) : is_zero q = true <-> Q2R q = 0%R.
Proof.
  unfold is_zero. rewrite Qeq_bool_iff. split; intros H.
  - rewrite (Qeq_eqR _ _ H). apply Q2R_zero.
  - apply eqR_Qeq. now rewrite Q2R_zero.
Qed.

(** *** Histories without a missing rating *)

Lemma py_sum_from_present (l : list Z) (acc : Z) :
  py_sum_from acc (map Some l) = Ok (acc + Zsum l).
Proof.
  revert acc. induction l as [|v l IH]; intros acc; simpl.
  - now rewrite Z.add_0_r.
  - rewrite IH. f_equal. lia.
Qed.

Lemma values_present (d : Dict.t Z) :
  Dict.values (present d) = map Some (Dict.values d).
Proof.
  unfold Dict.values, present. rewrite !map_map.
  apply map_ext. now intros [c r].
Qed.

Lemma len_present (d : Dict.t Z) : Dict.len (present d) = Dict.len d.
Proof. unfold Dict.len, present. now rewrite length_map. Qed.

Lemma get_present (d : Dict.t Z) (c : Z) :
  Dict.get c (present d) = option_map Some (Dict.get c d).
Proof.
  induction d as [|[c' r] d IH]; simpl; [reflexivity|].
  destruct (c =? c'); [reflexivity|exact IH].
Qed.

Lemma get_nonempty (d : Dict.t Z) (c r : Z) :
  Dict.get c d = Some r -> Dict.len d <> 0.
Proof. destruct d; simpl; [discriminate|]. unfold Dict.len. simpl. lia. Qed.

Lemma mean_present (d : Dict.t Z) :
  Dict.len d <> 0 -> mean (present d) = Ok (mean_of d).
Proof.
  intros H. unfold mean, py_sum.
  rewrite values_present, py_sum_from_present, len_present. simpl.
  apply Z.eqb_neq in H. now rewrite H.
Qed.

Lemma accumulate_present (candidate : Dict.t Z) (c r : Z) (acc : sums) :
  accumulate (present candidate) (c, Some r) acc
  = match Dict.get c candidate with
    | Some r' =>
        Ok (add_pair acc (inject_Z r - mean_of candidate,
                          inject_Z r' - mean_of candidate)%Q)
    | None => Ok acc
    end.
Proof.
  unfold accumulate. rewrite get_present.
  destruct (Dict.get c candidate) as [r'|] eqn:Hget; simpl; [|reflexivity].
  unfold deviation. rewrite (mean_present _ (get_nonempty _ _ _ Hget)).
  reflexivity.
Qed.

Lemma shared_cons (c r : Z) (seed candidate : Dict.t Z) :
  shared ((c, r) :: seed) candidate
  = match Dict.get c candidate with
    | Some r' => [(r, r')]
    | None => []
    end ++ shared seed candidate.
Proof. reflexivity. Qed.

Lemma correlate_present_from (seed candidate : Dict.t Z) (acc : sums) :
  for_each (Dict.items (present seed)) (accumulate (present candidate)) acc
  = Ok (fold_left add_pair (deviations seed candidate) acc).
Proof.
  revert acc. induction seed as [|[c r] seed IH]; intros acc; [reflexivity|].
  unfold Dict.items in *.
  change (present ((c, r) :: seed)) with ((c, Some r) :: present seed).
  cbn [for_each]. rewrite accumulate_present. unfold deviations. rewrite shared_cons.
  destruct (Dict.get c candidate) as [r'|]; simpl; apply IH.
Qed.

Lemma correlate_present (seed candidate : Dict.t Z) :
  correlate (present seed) (present candidate)
  = Ok (fold_left add_pair (deviations seed candidate) sums0).
Proof. apply correlate_present_from. Qed.

(** *** The accumulators as sums *)






Lemma similarity_zero (s : sums) :
  Q2R (denominator1 s) = 0%R \/ Q2R (denominator2 s) = 0%R -> similarity s = 0%R.
Proof.
  intros H. unfold similarity.
  destruct H as [H | H]; apply is_zero_iff in H; rewrite H;
    [reflexivity|now rewrite orb_true_r].
Qed.

Lemma similarity_quotient (s : sums) :
  Q2R (denominator1 s) <> 0%R -> Q2R (denominator2 s) <> 0%R ->
  similarity s
  = (Q2R (numerator s) / sqrt (Q2R (denominator1 s) * Q2R (denominator2 s)))%R.
Proof.
  intros H1 H2. unfold similarity.
  destruct (is_zero (denominator1 s)) eqn:E1;
    [apply is_zero_iff in E1; contradiction|].
  destruct (is_zero (denominator2 s)) eqn:E2;
    [apply is_zero_iff in E2; contradiction|].
  simpl. now rewrite Q2R_mult.
Qed.


(** The scenario of the specification: seed [{A:5, B:3}], candidate
    [{A:4, B:2}].  The candidate's mean is 3, the sums are 2, 4 and 2, the
    similarity is [2 / sqrt 8]; the textbook coefficient of the two
    histories is 1. *)
Lemma similarity_scenario :
  correlate (present SimilarityExample.seed) (present SimilarityExample.candidate)
  = Ok (fold_left add_pair
          (deviations SimilarityExample.seed SimilarityExample.candidate) sums0)
  /\ spec_numerator SimilarityExample.seed SimilarityExample.candidate = 2%R
  /\ spec_squares_seed SimilarityExample.seed SimilarityExample.candidate = 4%R
  /\ spec_squares_candidate SimilarityExample.seed SimilarityExample.candidate = 2%R
  /\ spec_similarity SimilarityExample.seed SimilarityExample.candidate
     = (2 / sqrt 8)%R.
Proof.
  assert (Hn : spec_numerator SimilarityExample.seed SimilarityExample.candidate = 2%R).
  { unfold spec_numerator, mean_candidate, Rsum. cbn. lra. }
  assert (H1 : spec_squares_seed SimilarityExample.seed SimilarityExample.candidate = 4%R).
  { unfold spec_squares_seed, mean_candidate, Rsum. cbn. lra. }
  assert (H2 : spec_squares_candidate SimilarityExample.seed SimilarityExample.candidate = 2%R).
  { unfold spec_squares_candidate, mean_candidate, Rsum. cbn. lra. }
  split; [apply correlate_present|].
  repeat split; trivial.
  unfold spec_similarity. rewrite Hn, H1, H2.
  destruct (Req_dec_T 4 0) as [E|_]; [lra|].
  destruct (Req_dec_T 2 0) as [E|_]; [lra|].
  do 2 f_equal. lra.
Qed.

(** *** The bound *)

Lemma accumulate_shape (ratings : Dict.t (option Z)) (item : Z * option Z)
      (acc acc' : sums) :
  accumulate ratings item acc = Ok acc' ->
  acc' = acc \/ exists p, acc' = add_pair acc p.
Proof.
  unfold accumulate. destruct item as [customer_id rating].
  destruct (Dict.get customer_id ratings) as [their|].
  - destruct (deviation rating ratings) as [a|e]; [|discriminate].
    destruct (deviation their ratings) as [b|e]; [|discriminate].
    simpl. intros H. injection H as <-. right. now exists (a, b).
  - intros H. injection H as <-. now left.
Qed.

Lemma cauchy_schwarz_step (N A B a b : R) :
  (N * N <= A * B -> 0 <= A -> 0 <= B ->
   (N + a * b) * (N + a * b) <= (A + a * a) * (B + b * b))%R.
Proof.
  intros H HA HB.
  pose proof (Rle_0_sqr a) as Ha. pose proof (Rle_0_sqr b) as Hb.
  pose proof (Rle_0_sqr (a * b)) as Hab.
  pose proof (Rle_0_sqr (A * (b * b) - B * (a * a))) as Hd.
  unfold Rsqr in *.
  assert (Hs : (0 <= A * (b * b) + B * (a * a))%R) by nra.
  assert (Hp : (0 <= (a * b) * (a * b) * (A * B - N * N))%R)
    by (apply Rmult_le_pos; lra).
  assert (H2 : ((2 * N * (a * b)) * (2 * N * (a * b))
                <= (A * (b * b) + B * (a * a)) * (A * (b * b) + B * (a * a)))%R)
    by nra.
  assert (H3 : (2 * N * (a * b) <= A * (b * b) + B * (a * a))%R).
  { destruct (Rle_dec (2 * N * (a * b)) 0); [lra|nra]. }
  nra.
Qed.

Lemma bounded_sums0 : bounded sums0.
Proof. unfold bounded. simpl. rewrite Q2R_zero. lra. Qed.

Lemma bounded_add_pair (acc : sums) (p : Q * Q) :
  bounded acc -> bounded (add_pair acc p).
Proof.
  intros [H [H1 H2]]. unfold bounded, add_pair.
  cbn [numerator denominator1 denominator2].
  rewrite !Q2R_plus, !Q2R_square, Q2R_mult.
  pose proof (Rle_0_sqr (Q2R (fst p))) as Ha.
  pose proof (Rle_0_sqr (Q2R (snd p))) as Hb. unfold Rsqr in *.
  split; [now apply cauchy_schwarz_step|]. split; lra.
Qed.

Lemma for_each_accumulate_bounded (ratings : Dict.t (option Z))
      (l : list (Z * option Z)) (acc s : sums) :
  bounded acc -> for_each l (accumulate ratings) acc = Ok s -> bounded s.
Proof.
  revert acc. induction l as [|item l IH]; intros acc Hb; simpl.
  - intros H. now injection H as <-.
  - destruct (accumulate ratings item acc) as [acc'|e] eqn:E; [|discriminate].
    simpl. apply IH.
    destruct (accumulate_shape _ _ _ _ E) as [-> | [p ->]];
      [assumption|now apply bounded_add_pair].
Qed.

Lemma correlate_bounded (worker_ratings ratings : Dict.t (option Z)) (s : sums) :
  correlate worker_ratings ratings = Ok s -> bounded s.
Proof. apply for_each_accumulate_bounded, bounded_sums0. Qed.

Lemma bounded_similarity (s : sums) :
  bounded s -> (-1 <= similarity s <= 1)%R.
Proof.
  intros [H [H1 H2]].
  destruct (Req_dec_T (Q2R (denominator1 s)) 0) as [E1|E1];
    [rewrite similarity_zero by (now left); lra|].
  destruct (Req_dec_T (Q2R (denominator2 s)) 0) as [E2|E2];
    [rewrite similarity_zero by (now right); lra|].
  rewrite similarity_quotient by assumption.
  set (N := Q2R (numerator s)) in *.
  set (P := (Q2R (denominator1 s) * Q2R (denominator2 s))%R) in *.
  assert (HP : (0 < P)%R) by (apply Rmult_lt_0_compat; lra).
  pose proof (sqrt_lt_R0 P HP) as HD.
  pose proof (sqrt_sqrt P (Rlt_le _ _ HP)) as HDD.
  set (D := sqrt P) in *.
  assert (Hx : (N = N / D * D)%R) by (field; lra).
  set (x := (N / D)%R) in *.
  assert (HD2 : (0 < D * D)%R) by nra.
  assert (Hx2 : (x * x <= 1)%R).
  { destruct (Rle_dec (x * x) 1) as [|C]; [assumption|exfalso].
    assert ((0 < (x * x - 1) * (D * D))%R)
      by (apply Rmult_lt_0_compat; lra).
    rewrite Hx in H. nra. }
  split; nra.
Qed.

(** C9.  For every seed history and every candidate history the inner loop
    returns a similarity in [[-1, 1]] (histories without missing rating),
    and whenever it returns, on any histories, the similarity lies in
    [[-1, 1]]: the numerator is the dot product of the two deviation vectors
    whose squared lengths are the two denominators (Cauchy-Schwarz), and the
    zero branch gives 0.  The arithmetic is exact. *)
Theorem similarity_in_unit_interval :
  (forall seed candidate : Dict.t Z,
      exists s, correlate (present seed) (present candidate) = Ok s
                /\ (-1 <= similarity s <= 1)%R)
  /\ (forall (worker_ratings ratings : Dict.t (option Z)) (s : sums),
         correlate worker_ratings ratings = Ok s -> (-1 <= similarity s <= 1)%R).
Proof.
  assert (H : forall (worker_ratings ratings : Dict.t (option Z)) (s : sums),
             correlate worker_ratings ratings = Ok s ->
             (-1 <= similarity s <= 1)%R).
  { intros wr r s E. apply bounded_similarity. eapply correlate_bounded, E. }
  split; [|exact H].
  intros seed candidate.
  exists (fold_left add_pair (deviations seed candidate) sums0).
  split; [apply correlate_present|].
  apply (H (present seed) (present candidate)), correlate_present.
Qed.

Lemma similarity_in_unit_interval_scenario :
  (-1 <= similarity
           (fold_left add_pair
              (deviations SimilarityExample.seed SimilarityExample.candidate)
              sums0) <= 1)%R.
Proof.
  apply (proj2 similarity_in_unit_interval
               (present SimilarityExample.seed)
               (present SimilarityExample.candidate)).
  reflexivity.
Defined.

(** *** The order of the similarities

    [similarity_lt] compares the keys [sign x * x² / d]; on sums of squares
    this is the order of the similarities [x / sqrt d]. *)





(** The mean is taken over all ratings of the candidate, shared or not: a
    third customer of the candidate alone moves the mean to 11/3 and the
    numerator from 2 to 14/9. *)
Lemma mean_over_all_candidate_ratings :
  mean_candidate (SimilarityExample.candidate ++ [(3, 5)]) = (11 / 3)%R
  /\ shared SimilarityExample.seed (SimilarityExample.candidate ++ [(3, 5)])
     = shared SimilarityExample.seed SimilarityExample.candidate
  /\ spec_numerator SimilarityExample.seed (SimilarityExample.candidate ++ [(3, 5)])
     = (14 / 9)%R.
Proof.
  split; [|split].
  - unfold mean_candidate. cbn. reflexivity.
  - reflexivity.
  - unfold spec_numerator, mean_candidate, Rsum. cbn. field.
Qed.

End Similarity.

(** ** The recommender as a whole (C10) *)

Section Recommender.
Import Recommendations.

Lemma set_present (d : Dict.t Z) (c r : Z) :
  Dict.set c (Some r) (present d) = present (Dict.set c r d).
Proof.
  induction d as [|[c' r'] d IH]; simpl; [reflexivity|].
  destruct (c =? c'); simpl; [reflexivity|now rewrite IH].
Qed.

Lemma fold_ratings_present (l : list Task.t) (d : Dict.t Z) :
  (forall x, In x l -> Task.rating x <> None) ->
  exists d',
    fold_left (fun d task => Dict.set (Task.customer task) (Task.rating task) d)
              l (present d) = present d'.
Proof.
  revert d. induction l as [|x l IH]; intros d H; simpl.
  - now exists d.
  - destruct (Task.rating x) as [r|] eqn:E.
    + rewrite set_present. apply IH. intros y Hy. apply H. now right.
    + exfalso. apply (H x); [now left|exact E].
Qed.

Lemma ratings_of_present (db : DB) (worker_id : Z) :
  rated db worker_id -> exists d, ratings_of db worker_id = present d.
Proof.
  intros H. unfold ratings_of. apply (fold_ratings_present _ []).
  intros x Hx. unfold completed_tasks in Hx. apply filter_In in Hx.
  destruct Hx as [Hx Hc]. apply andb_true_iff in Hc. destruct Hc as [Hw Hs].
  apply H; [assumption|now apply pk_eqb_eq|now apply status_eqb_eq].
Qed.

Lemma set_keys {V : Type} (P : Z -> Prop) (k : Z) (v : V) (d : Dict.t V) :
  P k -> Forall (fun kv => P (fst kv)) d ->
  Forall (fun kv => P (fst kv)) (Dict.set k v d).
Proof.
  intros Hk. induction d as [|[k' v'] d IH]; intros H; simpl.
  - now constructor.
  - inversion H as [|? ? Hk' Hd]; subst.
    destruct (k =? k'); constructor; auto.
Qed.

Lemma similarities_total (db : DB) (worker_id : Z) (P : Z -> Prop)
      (l : list Worker.t) (sims : Dict.t sums) :
  rated db worker_id ->
  (forall w, In w l -> rated db (Worker.id w)) ->
  (forall w, In w l -> Worker.id w <> worker_id -> P (Worker.id w)) ->
  Forall (fun kv => P (fst kv)) sims ->
  exists sims',
    for_each l
      (fun worker similarities =>
         if negb (Worker.id worker =? worker_id) then
           s <- correlate (ratings_of db worker_id)
                          (ratings_of db (Worker.id worker)) ;;
           Ok (Dict.set (Worker.id worker) s similarities)
         else Ok similarities)
      sims = Ok sims'
    /\ Forall (fun kv => P (fst kv)) sims'.
Proof.
  intros Hseed. destruct (ratings_of_present _ _ Hseed) as [ds Hds].
  rewrite Hds. revert sims. induction l as [|w l IH]; intros sims Hr HP Hs; simpl.
  - now exists sims.
  - destruct (Worker.id w =? worker_id) eqn:E; simpl.
    + apply IH; auto with datatypes.
    + destruct (ratings_of_present db (Worker.id w)) as [dc Hdc];
        [apply Hr; now left|].
      rewrite Hdc, correlate_present. simpl.
      apply IH; auto with datatypes.
      apply set_keys; [|assumption].
      apply HP; [now left|now apply Z.eqb_neq].
Qed.

Lemma insert_desc_In {A : Type} (lt : A -> A -> bool) (x y : A) (l : list A) :
  In y (insert_desc lt x l) <-> y = x \/ In y l.
Proof.
  induction l as [|z l IH]; simpl; [intuition|].
  destruct (lt x z); simpl; rewrite ?IH; intuition.
Qed.

Lemma sort_desc_In {A : Type} (lt : A -> A -> bool) (y : A) (l : list A) :
  In y (sort_desc lt l) <-> In y l.
Proof.
  induction l as [|x l IH]; simpl; [reflexivity|].
  rewrite insert_desc_In, IH. intuition.
Qed.

Lemma firstn_In {A : Type} (n : nat) (x : A) (l : list A) :
  In x (firstn n l) -> In x l.
Proof.
  intros H. rewrite <- (firstn_skipn n l). apply in_or_app. now left.
Qed.

Lemma slice_to_In {A : Type} (n : Z) (x : A) (l : list A) :
  In x (slice_to n l) -> In x l.
Proof. unfold slice_to. destruct (0 <=? n); apply firstn_In. Qed.

Lemma slice_to_length {A : Type} (n : Z) (l : list A) :
  0 <= n -> Z.of_nat (List.length (slice_to n l)) <= n.
Proof.
  intros H. unfold slice_to. apply Z.leb_le in H as H'. rewrite H'.
  pose proof (firstn_le_length (Z.to_nat n) l). lia.
Qed.

Lemma get_worker_found (db : DB) (id : Z) :
  (exists w, In w (workers db) /\ Worker.id w = id) ->
  exists w, get_worker db id = Ok w /\ Worker.id w = id.
Proof.
  intros [w [Hw Hid]]. unfold get_worker.
  destruct (find (fun w => Worker.id w =? id) (workers db)) as [w'|] eqn:E.
  - exists w'. split; [reflexivity|].
    apply find_some in E. now apply Z.eqb_eq.
  - exfalso. apply (find_none _ _ E) in Hw. apply Z.eqb_neq in Hw. contradiction.
Qed.

Lemma top_workers_total (db : DB) (Q : Z -> Prop) (l : list (Z * sums))
      (top : list Worker.t) :
  Forall (fun kv => Q (fst kv)
                    /\ exists w, In w (workers db) /\ Worker.id w = fst kv) l ->
  Forall (fun w => Q (Worker.id w)) top ->
  exists top',
    for_each l
      (fun '(worker_id, _) top_similar_workers =>
         worker <- get_worker db worker_id ;;
         Ok (top_similar_workers ++ [worker]))
      top = Ok top'
    /\ List.length top' = (List.length top + List.length l)%nat
    /\ Forall (fun w => Q (Worker.id w)) top'.
Proof.
  revert top. induction l as [|[k s] l IH]; intros top Hl Ht; simpl.
  - exists top. repeat split; [lia|assumption].
  - inversion Hl as [|? ? [Hk Hex] Hl']; subst. simpl in Hk, Hex.
    destruct (get_worker_found db k Hex) as [w [Hget Hid]].
    rewrite Hget. simpl.
    destruct (IH (top ++ [w]) Hl') as [top' [H1 [H2 H3]]].
    + apply Forall_app. split; [assumption|].
      constructor; [now rewrite Hid|constructor].
    + exists top'. split; [assumption|]. split; [|assumption].
      rewrite H2, length_app. simpl. lia.
Qed.

(** C10.  When every completed task of the seed and of every available
    worker carries a rating (and the available workers are rows of the worker
    table), the recommender returns: at most [n] workers, for a count
    [n >= 0], none of them the seed.  On a database with a completed task
    without rating for a customer the seed has served too, the call ends in a
    [TypeError]. *)
Theorem pearson_defined_when_rated :
  (forall (db : DB) (worker_id : Z) (available_workers : list Worker.t) (n : Z),
      0 <= n ->
      incl available_workers (workers db) ->
      rated db worker_id ->
      (forall w, In w available_workers -> rated db (Worker.id w)) ->
      exists top,
        pearson_correlation_coefficient db worker_id available_workers n = Ok top
        /\ Z.of_nat (List.length top) <= n
        /\ Forall (fun w => Worker.id w <> worker_id) top)
  /\ (In RatingExample.unrated (tasks RatingExample.unrated_db)
      /\ Task.status RatingExample.unrated = completed
      /\ Task.rating RatingExample.unrated = None
      /\ Dict.mem (Task.customer RatingExample.unrated)
                  (ratings_of RatingExample.unrated_db 1) = true
      /\ pearson_correlation_coefficient
           RatingExample.unrated_db 1 (workers RatingExample.unrated_db) 5
         = Raise TypeError).
Proof.
  split.
  - intros db worker_id available n Hn Hincl Hseed Hrated.
    unfold pearson_correlation_coefficient. cbv zeta.
    set (P := fun k => k <> worker_id
                       /\ exists w, In w (workers db) /\ Worker.id w = k).
    destruct (similarities_total db worker_id P available [] Hseed Hrated)
      as [sims [Hsims HP]].
    { intros w Hw Hne. split; [assumption|]. exists w. split; [|reflexivity].
      now apply Hincl. }
    { constructor. }
    rewrite Hsims. simpl bind.
    destruct (top_workers_total db (fun k => k <> worker_id)
                (slice_to n (sort_desc similarity_lt (Dict.items sims))) [])
      as [top [Htop [Hlen Hall]]].
    { apply Forall_forall. intros kv Hkv.
      apply slice_to_In, sort_desc_In in Hkv.
      rewrite Forall_forall in HP. exact (HP kv Hkv). }
    { constructor. }
    exists top. split; [exact Htop|]. split; [|exact Hall].
    rewrite Hlen. simpl. now apply slice_to_length.
  - repeat split; try reflexivity. simpl. now left.
Qed.

Lemma pearson_defined_on_rated_example :
  exists top,
    pearson_correlation_coefficient RatingExample.db 1 (workers RatingExample.db) 5
    = Ok top
    /\ Z.of_nat (List.length top) <= 5
    /\ Forall (fun w => Worker.id w <> 1) top.
Proof.
  apply (proj1 pearson_defined_when_rated RatingExample.db 1
               (workers RatingExample.db) 5).
  - lia.
  - apply incl_refl.
  - intros x Hx _ _. simpl in Hx.
    destruct Hx as [<- | [<- | [<- | [<- | []]]]]; discriminate.
  - intros w _ x Hx _ _. simpl in Hx.
    destruct Hx as [<- | [<- | [<- | [<- | []]]]]; discriminate.
Defined.

(** On the rated example the recommender returns the candidate. *)
Lemma pearson_rated_example :
  pearson_correlation_coefficient RatingExample.db 1 (workers RatingExample.db) 5
  = Ok [RatingExample.candidate].
Proof. reflexivity. Qed.

End Recommender.

(** ** Request groups under status updates (C1) *)

Lemma save_existing (x : Task.t) (db : DB) (p : Z) :
  Task.pk x = Some p ->
  (exists y, In y (tasks db) /\ Task.pk y = Some p) ->
  save x db = (x, set_tasks (map (update_row x false) (tasks db)) db).
Proof.
  intros Hx [y [Hy Hp]]. unfold save. rewrite Hx.
  destruct (existsb (fun y => pk_eqb (Task.pk y) (Some p)) (tasks db)) eqn:E.
  - unfold update_row. rewrite Hx. reflexivity.
  - exfalso. apply not_true_iff_false in E. apply E.
    apply existsb_exists. exists y. split; [assumption|]. now apply pk_eqb_eq.
Qed.

Lemma update_row_pk (x : Task.t) (a : bool) (y : Task.t) :
  Task.pk (update_row x a y) = Task.pk y.
Proof.
  unfold update_row. destruct (pk_eqb (Task.pk y) (Task.pk x)) eqn:E.
  - apply pk_eqb_eq in E. congruence.
  - destruct (a && _); reflexivity.
Qed.

Lemma update_row_twice (x : Task.t) (a : bool) (y : Task.t) :
  update_row x false (update_row x a y) = update_row x a y.
Proof.
  unfold update_row at 1. rewrite update_row_pk.
  unfold update_row. destruct (pk_eqb (Task.pk y) (Task.pk x)); reflexivity.
Qed.

Lemma vanish_after_save (x y : Task.t) :
  (if request_id_eqb (Task.request_id (update_row x false y)) (Task.request_id x)
      && negb (pk_eqb (Task.pk (update_row x false y)) (Task.pk x))
   then Task.set_status vanished (update_row x false y)
   else update_row x false y)
  = update_row x true y.
Proof.
  rewrite update_row_pk. unfold update_row.
  destruct (pk_eqb (Task.pk y) (Task.pk x)) eqn:E; simpl.
  - now rewrite andb_false_r.
  - now rewrite andb_true_r.
Qed.

Lemma In_updated (x : Task.t) (a : bool) (l : list Task.t) :
  (exists y, In y l /\ Task.pk y = Task.pk x) ->
  exists y, In y (map (update_row x a) l) /\ Task.pk y = Task.pk x.
Proof.
  intros [y [Hy Hp]]. exists (update_row x a y). split.
  - now apply in_map.
  - now rewrite update_row_pk.
Qed.

Lemma tasks_vanish_others (x : Task.t) (l : list Task.t) (db : DB) :
  tasks (Views.vanish_others x (set_tasks (map (update_row x false) l) db))
  = map (update_row x true) l.
Proof.
  unfold Views.vanish_others. simpl. rewrite map_map.
  apply map_ext. intros y. apply vanish_after_save.
Qed.

Lemma tasks_create_notification (n : TaskNotification.t) (db : DB) :
  tasks (create_notification n db) = tasks db.
Proof. reflexivity. Qed.

Lemma tasks_save_existing (x : Task.t) (db : DB) (p : Z) (a : bool) (l : list Task.t) :
  Task.pk x = Some p ->
  (exists y, In y l /\ Task.pk y = Some p) ->
  tasks db = map (update_row x a) l ->
  tasks (snd (save x db)) = map (update_row x a) l.
Proof.
  intros Hx Hex Hl.
  rewrite (save_existing x db p Hx).
  - simpl. rewrite Hl, map_map. apply map_ext. intros y. apply update_row_twice.
  - rewrite Hl. rewrite <- Hx in *. now apply In_updated.
Qed.

(** A status update either writes nothing or rewrites the table row by row
    with [update_row]. *)
Lemma task_update_effect (pk : Z) (posted : task_status) (from_requested : bool)
      (user_worker : option Worker.t) (db : DB) :
  tasks (snd (Views.task_update pk posted from_requested user_worker db)) = tasks db
  \/ exists t x choices,
      row pk db = Some t
      /\ Views.get_form t from_requested = Ok choices
      /\ Forms.status_in posted choices = true
      /\ Task.pk x = Some pk
      /\ Task.request_id x = Task.request_id t
      /\ Task.status x = posted
      /\ tasks (snd (Views.task_update pk posted from_requested user_worker db))
         = map (update_row x (status_eqb posted in_progress)) (tasks db).
Proof.
  unfold Views.task_update, get_object_or_404, row.
  destruct (find (fun y => pk_eqb (Task.pk y) (Some pk)) (tasks db)) as [t|] eqn:Hfind;
    [|now left].
  destruct (Views.get_form t from_requested) as [choices|e] eqn:Hform; [|now left].
  destruct (Forms.status_in posted choices) eqn:Hin; [|now left].
  destruct (find_some _ _ Hfind) as [Ht Hpk]. apply pk_eqb_eq in Hpk.
  assert (Hex : exists y, In y (tasks db) /\ Task.pk y = Some pk) by (now exists t).
  assert (Hsaved : forall x a db',
             Task.pk x = Some pk ->
             tasks db' = map (update_row x a) (tasks db) ->
             tasks (snd (let '(_, db1) := save x db' in
                         (@Ok Views.response (Views.mkResponse [] []), db1)))
             = map (update_row x a) (tasks db)).
  { intros x a db' Hx Hl.
    pose proof (tasks_save_existing x db' pk a (tasks db) Hx Hex Hl) as H.
    destruct (save x db') as [x' db1]. exact H. }
  assert (Hfirst : forall x, Task.pk x = Some pk ->
             save x db = (x, set_tasks (map (update_row x false) (tasks db)) db)).
  { intros x Hx. now apply (save_existing x db pk). }
  unfold Views.form_valid.
  destruct posted; cbn [Task.status Task.set_status].
  - (* requested *)
    right. exists t, (Task.set_status requested t), choices.
    rewrite (Hfirst (Task.set_status requested t) Hpk).
    repeat split; trivial. now apply Hsaved.
  - (* in progress *)
    destruct user_worker as [worker|]; [|now left].
    match goal with |- context [save ?i db] => set (x := i) end.
    assert (Hx : Task.pk x = Some pk) by exact Hpk.
    right. exists t, x, choices. rewrite (Hfirst x Hx).
    repeat split; trivial.
    cbv beta iota.
    match goal with |- context [save x ?d] =>
      pose proof (tasks_save_existing x d pk true (tasks db) Hx Hex) as H;
      destruct (save x d) as [x' db1]
    end.
    apply H. rewrite tasks_create_notification. apply tasks_vanish_others.
  - (* completed *)
    right. exists t, (Task.set_status completed t), choices.
    rewrite (Hfirst (Task.set_status completed t) Hpk).
    repeat split; trivial. cbv beta iota.
    destruct (Views.worker_username _ _) as [name|e]; [|reflexivity].
    match goal with |- context [save ?x ?d] =>
      pose proof (tasks_save_existing x d pk false (tasks db) Hpk Hex) as H;
      destruct (save x d) as [x' db1]
    end.
    apply H. reflexivity.
  - (* rejected *)
    right. exists t, (Task.set_status rejected t), choices.
    rewrite (Hfirst (Task.set_status rejected t) Hpk).
    repeat split; trivial. cbv beta iota.
    destruct (Views.worker_username _ _) as [name|e]; [|reflexivity].
    match goal with |- context [save ?x ?d] =>
      pose proof (tasks_save_existing x d pk false (tasks db) Hpk Hex) as H;
      destruct (save x d) as [x' db1]
    end.
    apply H. reflexivity.
  - (* vanished *)
    right. exists t, (Task.set_status vanished t), choices.
    rewrite (Hfirst (Task.set_status vanished t) Hpk).
    repeat split; trivial. now apply Hsaved.
Qed.

Lemma choices_cases (t : Task.t) (from_requested : bool) (posted : task_status)
      (choices : list task_status) :
  Views.get_form t from_requested = Ok choices ->
  Forms.status_in posted choices = true ->
  (Task.status t = requested \/ Task.status t = in_progress)
  /\ (posted = in_progress \/ posted = rejected
      \/ (posted = completed /\ Task.status t = in_progress)).
Proof.
  unfold Views.get_form, Forms.init_choices, Forms.valid_transitions.
  destruct (Task.status t), from_requested; simpl; intros H; try discriminate;
    injection H as <-; destruct posted; simpl; intros Hin; try discriminate;
    auto 6.
Qed.

Lemma unique_row (l : list Task.t) (a b : Task.t) :
  NoDup (map Task.pk l) -> In a l -> In b l -> Task.pk a = Task.pk b -> a = b.
Proof.
  induction l as [|c l IH]; simpl; [easy|].
  intros Hnd Ha Hb Hpk. inversion Hnd as [|? ? Hnotin Hnd']; subst.
  destruct Ha as [-> | Ha], Hb as [-> | Hb]; auto.
  - exfalso. apply Hnotin. rewrite Hpk. now apply in_map.
  - exfalso. apply Hnotin. rewrite <- Hpk. now apply in_map.
Qed.

Lemma row_found (pk : Z) (db : DB) (t : Task.t) :
  row pk db = Some t -> In t (tasks db) /\ Task.pk t = Some pk.
Proof.
  unfold row. intros H. apply find_some in H. destruct H as [H1 H2].
  split; [assumption|now apply pk_eqb_eq].
Qed.

Lemma find_updated (x : Task.t) (a : bool) (pk : Z) (l : list Task.t) (t : Task.t) :
  Task.pk x = Some pk ->
  find (fun y => pk_eqb (Task.pk y) (Some pk)) l = Some t ->
  find (fun y => pk_eqb (Task.pk y) (Some pk)) (map (update_row x a) l) = Some x.
Proof.
  intros Hx. induction l as [|y l IH]; simpl; [discriminate|].
  rewrite update_row_pk.
  destruct (pk_eqb (Task.pk y) (Some pk)) eqn:E.
  - intros _. unfold update_row. now rewrite Hx, E.
  - exact IH.
Qed.


Section Step.
Variables (pk : Z) (posted : task_status) (from_requested : bool)
          (user_worker : option Worker.t) (db : DB).
Let db' : DB := snd (Views.task_update pk posted from_requested user_worker db).
Hypothesis Hunique : unique_keys db.

Lemma step_unique : unique_keys db'.
Proof.
  unfold unique_keys, db'.
  destruct (task_update_effect pk posted from_requested user_worker db)
    as [-> | (t & x & choices & _ & _ & _ & _ & _ & _ & ->)]; [assumption|].
  rewrite map_map. erewrite map_ext; [exact Hunique|].
  intros y. apply update_row_pk.
Qed.

Lemma updated_member (g : option string) (t x : Task.t) (a : bool) (y' : Task.t) :
  row pk db = Some t ->
  Task.pk x = Some pk ->
  Task.request_id x = Task.request_id t ->
  In y' (filter (fun z => request_id_eqb (Task.request_id z) g)
                (map (update_row x a) (tasks db))) ->
  exists y, In y (group g db) /\ y' = update_row x a y
            /\ (Task.pk y = Task.pk x -> y = t).
Proof.
  intros Hrow Hx Hrid Hin. apply row_found in Hrow. destruct Hrow as [Ht Hpk].
  apply filter_In in Hin. destruct Hin as [Hin Hg].
  apply in_map_iff in Hin. destruct Hin as [y [<- Hy]].
  assert (Hsame : Task.pk y = Task.pk x -> y = t).
  { intros E. apply (unique_row (tasks db)); trivial. congruence. }
  exists y. split; [|now split].
  apply filter_In. split; [assumption|].
  revert Hg. unfold update_row.
  destruct (pk_eqb (Task.pk y) (Task.pk x)) eqn:E.
  - apply pk_eqb_eq in E. rewrite (Hsame E), Hrid. trivial.
  - destruct (a && _); trivial.
Qed.

Lemma step_resolved (g : option string) (p : option Z) :
  resolved g p db -> resolved g p db'.
Proof.
  intros Hres. unfold resolved, group, db'.
  destruct (task_update_effect pk posted from_requested user_worker db)
    as [-> | (t & x & choices & Hrow & Hform & Hin & Hx & Hrid & Hst & ->)];
    [exact Hres|].
  intros y' Hy' Hne.
  destruct (updated_member g t x _ y' Hrow Hx Hrid Hy') as (y & Hy & -> & Hsame).
  rewrite update_row_pk in Hne. pose proof (Hres y Hy Hne) as Hv.
  unfold update_row. destruct (pk_eqb (Task.pk y) (Task.pk x)) eqn:E.
  - apply pk_eqb_eq in E. rewrite (Hsame E) in Hv.
    destruct (choices_cases _ _ _ _ Hform Hin) as [[Hs | Hs] _]; congruence.
  - destruct (_ && _); [reflexivity|assumption].
Qed.

Lemma step_open (g : option string) :
  open_group g db ->
  open_group g db' \/ exists p, resolved g (Some p) db'.
Proof.
  intros Hopen. unfold open_group, resolved, group, db'.
  destruct (task_update_effect pk posted from_requested user_worker db)
    as [-> | (t & x & choices & Hrow & Hform & Hin & Hx & Hrid & Hst & ->)];
    [now left|].
  destruct (choices_cases _ _ _ _ Hform Hin) as [Ht Hposted].
  destruct (row_found _ _ _ Hrow) as [Htin Htpk].
  destruct (request_id_eqb (Task.request_id t) g) eqn:Eg.
  - (* the updated row is a member *)
    apply request_id_eqb_eq in Eg.
    assert (Htg : In t (group g db)).
    { apply filter_In. split; [assumption|]. now apply request_id_eqb_eq. }
    destruct (Hopen t Htg) as [Hreq | Hrej]; [|destruct Ht; congruence].
    destruct Hposted as [-> | [-> | [_ Hp]]]; [| |congruence].
    + right. exists pk. intros y' Hy' Hne.
      destruct (updated_member g t x _ y' Hrow Hx Hrid Hy') as (y & Hy & -> & _).
      rewrite update_row_pk, <- Hx in Hne. unfold update_row.
      destruct (pk_eqb (Task.pk y) (Task.pk x)) eqn:E;
        [apply pk_eqb_eq in E; contradiction|].
      apply filter_In in Hy. destruct Hy as [_ Hyg].
      apply request_id_eqb_eq in Hyg.
      assert (Er : request_id_eqb (Task.request_id y) (Task.request_id x) = true)
        by (apply request_id_eqb_eq; congruence).
      simpl. rewrite Er. reflexivity.
    + left. intros y' Hy'.
      destruct (updated_member g t x _ y' Hrow Hx Hrid Hy') as (y & Hy & -> & _).
      unfold update_row. destruct (pk_eqb (Task.pk y) (Task.pk x)); simpl.
      * now right.
      * now apply Hopen.
  - (* the updated row belongs to another group *)
    left. intros y' Hy'.
    destruct (updated_member g t x _ y' Hrow Hx Hrid Hy') as (y & Hy & -> & Hsame).
    assert (Hyg : Task.request_id y = g).
    { apply filter_In in Hy. now apply request_id_eqb_eq. }
    unfold update_row. destruct (pk_eqb (Task.pk y) (Task.pk x)) eqn:E.
    + apply pk_eqb_eq in E. rewrite (Hsame E) in Hyg.
      apply request_id_eqb_eq in Hyg. congruence.
    + assert (Er : request_id_eqb (Task.request_id y) (Task.request_id x) = false).
      { rewrite Hrid, Hyg. apply not_true_iff_false. intros C.
        apply request_id_eqb_eq in C. symmetry in C.
        apply request_id_eqb_eq in C. congruence. }
      rewrite Er, andb_false_r. now apply Hopen.
Qed.
End Step.

Lemma run_cons (r : request) (rs : list request) (db : DB) :
  run (r :: rs) db = run rs (snd (handle r db)).
Proof. reflexivity. Qed.

Lemma run_unique (rs : list request) (db : DB) :
  forallb is_update rs = true -> unique_keys db -> unique_keys (run rs db).
Proof.
  revert db. induction rs as [|r rs IH]; intros db Hrs Hu; [assumption|].
  simpl in Hrs. apply andb_true_iff in Hrs. destruct Hrs as [Hr Hrs].
  rewrite run_cons. apply IH; [assumption|].
  destruct r; try discriminate. now apply step_unique.
Qed.

Lemma run_resolved (g : option string) (p : option Z) (rs : list request) (db : DB) :
  forallb is_update rs = true -> unique_keys db ->
  resolved g p db -> resolved g p (run rs db).
Proof.
  revert db. induction rs as [|r rs IH]; intros db Hrs Hu Hres; [assumption|].
  simpl in Hrs. apply andb_true_iff in Hrs. destruct Hrs as [Hr Hrs].
  rewrite run_cons. destruct r; try discriminate. simpl.
  apply IH; [assumption|now apply step_unique|now apply step_resolved].
Qed.

Lemma run_open (g : option string) (rs : list request) (db : DB) :
  forallb is_update rs = true -> unique_keys db -> open_group g db ->
  open_group g (run rs db) \/ exists p, resolved g (Some p) (run rs db).
Proof.
  revert db. induction rs as [|r rs IH]; intros db Hrs Hu Hopen; [now left|].
  simpl in Hrs. apply andb_true_iff in Hrs. destruct Hrs as [Hr Hrs].
  rewrite run_cons. destruct r; try discriminate. simpl.
  destruct (step_open pk posted from_requested user_worker db Hu g Hopen)
    as [Ho | [p Hp]].
  - apply IH; [assumption|now apply step_unique|assumption].
  - right. exists p.
    apply run_resolved; [assumption|now apply step_unique|assumption].
Qed.

(** C1, amended.  Take a request group whose members are all requested,
    as the dispatch creates it, and any sequence of status updates through
    [TaskUpdateView].  Once a member is in progress or completed, every
    other member of the group is vanished, then and after every further
    update: at most one member ever becomes in progress or completed, and
    the acceptance of one makes all others vanish.  (Rejections are not
    counted: several members may be rejected while the group is open.) *)
Theorem accepted_member_excludes_the_others
        (db0 : DB) (g : option string) (rs1 rs2 : list request) (x : Task.t) :
  unique_keys db0 ->
  (forall y, In y (group g db0) -> Task.status y = requested) ->
  forallb is_update rs1 = true ->
  forallb is_update rs2 = true ->
  In x (group g (run rs1 db0)) ->
  Task.status x = in_progress \/ Task.status x = completed ->
  forall y, In y (group g (run rs2 (run rs1 db0))) ->
            Task.pk y <> Task.pk x ->
            Task.status y = vanished.
Proof.
  intros Hu Hfresh H1 H2 Hx Hactive.
  assert (Hopen : open_group g db0) by (intros y Hy; left; now apply Hfresh).
  assert (Hres : resolved g (Task.pk x) (run rs1 db0)).
  { destruct (run_open g rs1 db0 H1 Hu Hopen) as [Ho | [p Hp]].
    - destruct (Ho x Hx), Hactive; congruence.
    - destruct (pk_eqb (Task.pk x) (Some p)) eqn:E.
      + apply pk_eqb_eq in E. now rewrite E.
      + assert (Hne : Task.pk x <> Some p)
          by (intros C; apply pk_eqb_eq in C; congruence).
        pose proof (Hp x Hx Hne). destruct Hactive; congruence. }
  apply run_resolved; [assumption|now apply run_unique|assumption].
Qed.

Lemma accepted_member_excludes_the_others_example :
  Forall (fun y => Task.pk y <> Some 1 -> Task.status y = vanished)
         (group (Some "r"%string)
                (run [Update 1 completed false (Some GroupExample.w1);
                      Update 2 in_progress true (Some GroupExample.w2)]
                     (run [Update 1 in_progress false (Some GroupExample.w1)]
                          GroupExample.db))).
Proof.
  apply Forall_forall. intros y Hy Hne.
  apply (accepted_member_excludes_the_others
           GroupExample.db (Some "r"%string)
           [Update 1 in_progress false (Some GroupExample.w1)]
           [Update 1 completed false (Some GroupExample.w1);
            Update 2 in_progress true (Some GroupExample.w2)]
           GroupExample.winner).
  - unfold unique_keys. simpl.
    repeat constructor; simpl; intuition discriminate.
  - simpl. intros z [<- | [<- | []]]; reflexivity.
  - reflexivity.
  - reflexivity.
  - vm_compute. right. left. reflexivity.
  - left. reflexivity.
  - exact Hy.
  - exact Hne.
Defined.

(** C1, as stated, fails: each worker may reject the request sent to it,
    and after two rejections two members of one group are rejected. *)
Lemma two_members_rejected :
  ~ at_most_one_settled
      (Some "r"%string)
      (run [Update 1 rejected false (Some GroupExample.w1);
            Update 2 rejected false (Some GroupExample.w2)]
           GroupExample.db).
Proof.
  intros H.
  specialize (H (Task.set_status rejected (GroupExample.asked 1 1))
                (Task.set_status rejected (GroupExample.asked 2 2))).
  assert (E : Some 1 = Some 2); [|discriminate E].
  apply H.
  - vm_compute. right. left. reflexivity.
  - vm_compute. left. reflexivity.
  - reflexivity.
  - reflexivity.
Qed.

(** The function views do not keep the group: [task_reject] reopens the
    vanished row and [task_accept] puts it in progress without touching the
    accepted row. *)
Lemma function_views_leave_two_in_progress :
  status_of 1 (run [Reject 2; Accept 2 (Some GroupExample.w2)]
                   GroupExample.accepted) = Some in_progress
  /\ status_of 2 (run [Reject 2; Accept 2 (Some GroupExample.w2)]
                      GroupExample.accepted) = Some in_progress.
Proof. split; reflexivity. Qed.

(** * Further properties of the code *)

(** ** Sorting *)

Section SortedDesc.
Context {A : Type} (lt : A -> A -> bool).
Hypothesis lt_asym : forall a b, lt a b = true -> lt b a = false.
Hypothesis lt_negtrans :
  forall a b c, lt a b = false -> lt b c = false -> lt a c = false.

Lemma insert_desc_sorted (x : A) (l : list A) :
  sorted_desc lt l -> sorted_desc lt (insert_desc lt x l).
Proof.
  unfold sorted_desc. induction l as [|y l IH]; intros Hs; simpl.
  - constructor; constructor.
  - inversion Hs as [|? ? Hy Hl]; subst.
    destruct (lt x y) eqn:E.
    + constructor; [|now apply IH].
      apply Forall_forall. intros z Hz. apply insert_desc_In in Hz.
      destruct Hz as [-> | Hz]; [now apply lt_asym|].
      rewrite Forall_forall in Hy. now apply Hy.
    + constructor; [|assumption].
      constructor; [assumption|].
      rewrite Forall_forall in *. intros z Hz.
      apply (lt_negtrans x y z); auto.
Qed.

Lemma sort_desc_sorted (l : list A) : sorted_desc lt (sort_desc lt l).
Proof.
  induction l as [|x l IH]; simpl; [constructor|].
  now apply insert_desc_sorted.
Qed.

Lemma insert_desc_perm (x : A) (l : list A) :
  Permutation (x :: l) (insert_desc lt x l).
Proof.
  induction l as [|y l IH]; simpl; [reflexivity|].
  destruct (lt x y); [|reflexivity].
  rewrite perm_swap. now constructor.
Qed.

Lemma sort_desc_perm (l : list A) : Permutation l (sort_desc lt l).
Proof.
  induction l as [|x l IH]; simpl; [constructor|].
  rewrite <- insert_desc_perm. now constructor.
Qed.

Lemma sorted_desc_filter (f : A -> bool) (l : list A) :
  sorted_desc lt l -> sorted_desc lt (filter f l).
Proof.
  unfold sorted_desc. induction 1 as [|x l Hx Hl IH]; simpl; [constructor|].
  destruct (f x); [|assumption].
  constructor; [|assumption].
  rewrite Forall_forall in *. intros z Hz. apply filter_In in Hz.
  now apply Hx.
Qed.

End SortedDesc.

(** *** The rank of the skill matcher *)

Lemma rating_lt_asym (a b : option Q) :
  Views.rating_lt a b = true -> Views.rating_lt b a = false.
Proof.
  destruct a as [x|], b as [y|]; simpl; try easy.
  rewrite negb_true_iff, negb_false_iff. intros H.
  apply Qle_bool_iff. apply Qlt_le_weak, Qnot_le_lt.
  intros C. apply Qle_bool_iff in C. congruence.
Qed.

Lemma rating_lt_negtrans (a b c : option Q) :
  Views.rating_lt a b = false -> Views.rating_lt b c = false ->
  Views.rating_lt a c = false.
Proof.
  destruct a as [x|], b as [y|], c as [z|]; simpl; try easy.
  rewrite !negb_false_iff, !Qle_bool_iff. intros H1 H2.
  now apply Qle_trans with y.
Qed.

Lemma rank_lt_asym (db : DB) (a b : Worker.t) :
  Views.rank_lt db a b = true -> Views.rank_lt db b a = false.
Proof.
  unfold Views.rank_lt. intros H.
  apply orb_true_iff in H. apply orb_false_iff.
  destruct H as [H | H].
  - apply Z.ltb_lt in H. split; [apply Z.ltb_ge; lia|].
    apply andb_false_iff. left. apply Z.eqb_neq. lia.
  - apply andb_true_iff in H. destruct H as [He Hr]. apply Z.eqb_eq in He.
    split; [apply Z.ltb_ge; lia|].
    apply andb_false_iff. right. now apply rating_lt_asym.
Qed.

Lemma rank_lt_false (db : DB) (a b : Worker.t) :
  Views.rank_lt db a b = false <->
  Views.tasks_completed db b < Views.tasks_completed db a
  \/ (Views.tasks_completed db a = Views.tasks_completed db b
      /\ Views.rating_lt (Views.Avg_rating db a) (Views.Avg_rating db b) = false).
Proof.
  unfold Views.rank_lt. rewrite orb_false_iff, andb_false_iff, Z.ltb_ge, Z.eqb_neq.
  split.
  - intros [H1 [H2 | H2]]; [left; lia|].
    destruct (Z.eq_dec (Views.tasks_completed db a) (Views.tasks_completed db b));
      [right; now split|left; lia].
  - intros [H | [H1 H2]].
    + split; [lia|left; lia].
    + split; [lia|now right].
Qed.

Lemma rank_lt_negtrans (db : DB) (a b c : Worker.t) :
  Views.rank_lt db a b = false -> Views.rank_lt db b c = false ->
  Views.rank_lt db a c = false.
Proof.
  rewrite !rank_lt_false. intros [H1 | [H1 R1]] [H2 | [H2 R2]].
  - left. lia.
  - left. lia.
  - left. lia.
  - right. split; [lia|]. eapply rating_lt_negtrans; eassumption.
Qed.


Lemma filter_idempotent {A : Type} (f : A -> bool) (l : list A) :
  (forall x, In x l -> f x = true) -> filter f l = l.
Proof.
  induction l as [|x l IH]; intros H; simpl; [reflexivity|].
  rewrite (H x) by now left. f_equal. apply IH. intros y Hy. apply H. now right.
Qed.





(** ** The recommender's ranking *)

Section Ranking.
Import Recommendations.

Lemma ranking_unfold (db : DB) (worker_id : Z) (available : list Worker.t) :
  ranking db worker_id available
  = (similarities <- for_each available (similarity_step db worker_id) [] ;;
     Ok (sort_desc similarity_lt (Dict.items similarities))).
Proof. reflexivity. Qed.

Lemma pearson_by_ranking (db : DB) (worker_id : Z) (available : list Worker.t) (n : Z) :
  pearson_correlation_coefficient db worker_id available n
  = (r <- ranking db worker_id available ;; lookup_workers db (slice_to n r)).
Proof.
  rewrite ranking_unfold.
  change (pearson_correlation_coefficient db worker_id available n)
    with (similarities <- for_each available (similarity_step db worker_id) [] ;;
          lookup_workers db
            (slice_to n (sort_desc similarity_lt (Dict.items similarities)))).
  destruct (for_each available (similarity_step db worker_id) []); reflexivity.
Qed.

Lemma for_each_invariant {A S : Type} (I : S -> Prop) (l : list A)
      (body : A -> S -> result S) (acc acc' : S) :
  (forall x s s', In x l -> I s -> body x s = Ok s' -> I s') ->
  I acc -> for_each l body acc = Ok acc' -> I acc'.
Proof.
  revert acc. induction l as [|x l IH]; intros acc Hstep Hacc; simpl.
  - intros H. now injection H as <-.
  - destruct (body x acc) as [s|e] eqn:E; [|discriminate]. simpl.
    apply IH.
    + intros y s0 s' Hy. apply Hstep. now right.
    + apply (Hstep x acc s); auto with datatypes.
Qed.

Lemma set_keys_nodup {V : Type} (k : Z) (v : V) (d : Dict.t V) :
  NoDup (Dict.keys d) -> NoDup (Dict.keys (Dict.set k v d)).
Proof.
  unfold Dict.keys. induction d as [|[k' v'] d IH]; intros H; simpl.
  - constructor; [easy|constructor].
  - inversion H as [|? ? Hn Hd]; subst.
    destruct (k =? k') eqn:E; simpl.
    + now constructor.
    + constructor; [|now apply IH].
      intros C. apply Hn. clear IH Hn Hd H.
      induction d as [|[k2 v2] d IH]; simpl in *.
      * destruct C as [C | []]. apply Z.eqb_neq in E. congruence.
      * destruct (k =? k2) eqn:E2; simpl in C; [exact C|].
        destruct C as [C | C]; [now left|right; now apply IH].
Qed.

Lemma set_values {V : Type} (P : V -> Prop) (k : Z) (v : V) (d : Dict.t V) :
  P v -> Forall (fun kv => P (snd kv)) d ->
  Forall (fun kv => P (snd kv)) (Dict.set k v d).
Proof.
  intros Hv. induction d as [|[k' v'] d IH]; intros H; simpl.
  - now constructor.
  - inversion H as [|? ? Hk' Hd]; subst.
    destruct (k =? k'); constructor; auto.
Qed.

Lemma similarity_lt_asym (a b : Z * sums) :
  similarity_lt a b = true -> similarity_lt b a = false.
Proof.
  unfold similarity_lt. rewrite negb_true_iff, negb_false_iff. intros H.
  apply Qle_bool_iff, Qlt_le_weak, Qnot_le_lt.
  intros C. apply Qle_bool_iff in C. congruence.
Qed.

Lemma similarity_lt_negtrans (a b c : Z * sums) :
  similarity_lt a b = false -> similarity_lt b c = false ->
  similarity_lt a c = false.
Proof.
  unfold similarity_lt. rewrite !negb_false_iff, !Qle_bool_iff.
  intros H1 H2. eapply Qle_trans; eassumption.
Qed.


Lemma set_keys_mono {V : Type} (k k' : Z) (v : V) (d : Dict.t V) :
  In k (Dict.keys d) -> In k (Dict.keys (Dict.set k' v d)).
Proof.
  unfold Dict.keys. induction d as [|[k2 v2] d IH]; simpl; [easy|].
  destruct (k' =? k2); simpl; intros [H | H]; auto.
Qed.

Lemma set_keys_new {V : Type} (k : Z) (v : V) (d : Dict.t V) :
  In k (Dict.keys (Dict.set k v d)).
Proof.
  unfold Dict.keys. induction d as [|[k2 v2] d IH]; simpl; [now left|].
  destruct (k =? k2) eqn:E; simpl; [|now right].
  left. apply Z.eqb_eq in E. congruence.
Qed.

Lemma similarities_cover (db : DB) (worker_id : Z) (l : list Worker.t)
      (sims sims' : Dict.t sums) :
  for_each l (similarity_step db worker_id) sims = Ok sims' ->
  (forall k, In k (Dict.keys sims) -> In k (Dict.keys sims'))
  /\ (forall w, In w l -> Worker.id w <> worker_id ->
                In (Worker.id w) (Dict.keys sims')).
Proof.
  revert sims. induction l as [|a l IH]; intros sims; simpl.
  - intros H. injection H as <-. split; [auto|easy].
  - destruct (similarity_step db worker_id a sims) as [s|e] eqn:E; [|discriminate].
    simpl. intros H. destruct (IH s H) as [H1 H2].
    unfold similarity_step in E.
    destruct (Worker.id a =? worker_id) eqn:Ea; simpl in E.
    + injection E as <-. split; [exact H1|].
      intros w [-> | Hw] Hne; [apply Z.eqb_eq in Ea; contradiction|auto].
    + destruct (correlate _ _) as [c|e']; [|discriminate].
      simpl in E. injection E as <-. split.
      * intros k Hk. apply H1. now apply set_keys_mono.
      * intros w [-> | Hw] Hne; [|auto]. apply H1, set_keys_new.
Qed.

Lemma similarities_entries (db : DB) (worker_id : Z) (available : list Worker.t)
      (sims : Dict.t sums) :
  for_each available (similarity_step db worker_id) [] = Ok sims ->
  NoDup (Dict.keys sims)
  /\ Forall (fun kv => fst kv <> worker_id
                       /\ exists w, In w available /\ Worker.id w = fst kv) sims
  /\ Forall (fun kv => bounded (snd kv)) sims.
Proof.
  intros E.
  refine (for_each_invariant
            (fun sims : Dict.t sums =>
               NoDup (Dict.keys sims)
               /\ Forall (fun kv => fst kv <> worker_id
                                    /\ exists w, In w available
                                                 /\ Worker.id w = fst kv) sims
               /\ Forall (fun kv => bounded (snd kv)) sims)
            available _ [] sims _ _ E).
  - intros w s s' Hw [Hn [Hk Hb]]. unfold similarity_step.
    destruct (Worker.id w =? worker_id) eqn:Eid; simpl.
    + intros H. injection H as <-. repeat split; assumption.
    + destruct (correlate _ _) as [c|e'] eqn:Ec; [|discriminate].
      simpl. intros H. injection H as <-. split; [|split].
      * now apply set_keys_nodup.
      * apply (set_keys (fun k => k <> worker_id
                                  /\ exists w, In w available /\ Worker.id w = k));
          [|assumption].
        split; [now apply Z.eqb_neq|]. now exists w.
      * apply set_values; [|assumption]. eapply correlate_bounded, Ec.
  - repeat split; constructor.
Qed.

(** The ranking: sorted on the exact keys, its keys distinct and exactly
    the ids of the other available workers, its sums bounded. *)
Lemma ranking_keys (db : DB) (worker_id : Z) (available : list Worker.t)
      (r : list (Z * sums)) :
  ranking db worker_id available = Ok r ->
  sorted_desc similarity_lt r
  /\ Forall (fun kv => bounded (snd kv)) r
  /\ NoDup (map fst r)
  /\ (forall k, In k (map fst r) <->
                k <> worker_id /\ exists w, In w available /\ Worker.id w = k).
Proof.
  rewrite ranking_unfold.
  destruct (for_each available (similarity_step db worker_id) []) as [sims|e] eqn:E;
    [|discriminate].
  simpl. intros H. injection H as <-.
  destruct (similarities_entries _ _ _ _ E) as [Hn [Hk Hb]].
  destruct (similarities_cover _ _ _ _ _ E) as [_ Hcover].
  unfold Dict.items, Dict.keys in *.
  rewrite Forall_forall in Hk, Hb.
  pose proof (sort_desc_perm similarity_lt sims) as Hp.
  split; [|split; [|split]].
  - apply sort_desc_sorted;
      [apply similarity_lt_asym|apply similarity_lt_negtrans].
  - apply Forall_forall. intros kv Hkv. apply sort_desc_In in Hkv. now apply Hb.
  - eapply Permutation_NoDup; [|exact Hn]. now apply Permutation_map.
  - intros k. rewrite in_map_iff. split.
    + intros [kv [<- Hkv]]. apply sort_desc_In in Hkv. now apply Hk.
    + intros [Hne [w [Hw <-]]].
      pose proof (Hcover w Hw Hne) as Hin. apply in_map_iff in Hin.
      destruct Hin as [kv [Hkv Hin]]. exists kv. split; [assumption|].
      now apply sort_desc_In.
Qed.



Lemma get_worker_ok (db : DB) (k : Z) (w : Worker.t) :
  get_worker db k = Ok w -> In w (workers db) /\ Worker.id w = k.
Proof.
  unfold get_worker.
  destruct (find (fun w => Worker.id w =? k) (workers db)) as [w'|] eqn:E;
    [|discriminate].
  intros H. injection H as <-. apply find_some in E.
  destruct E as [H1 H2]. split; [assumption|now apply Z.eqb_eq].
Qed.

Lemma lookup_workers_from (db : DB) (l : list (Z * sums)) (top0 top : list Worker.t) :
  for_each l
    (fun '(worker_id, _) top_similar_workers =>
       worker <- get_worker db worker_id ;;
       Ok (top_similar_workers ++ [worker]))
    top0 = Ok top ->
  exists found,
    top = top0 ++ found
    /\ map Worker.id found = map fst l
    /\ Forall (fun w => In w (workers db)) found.
Proof.
  revert top0. induction l as [|[k s] l IH]; intros top0; simpl.
  - intros H. injection H as <-. exists []. rewrite app_nil_r. repeat split.
    constructor.
  - destruct (get_worker db k) as [w|e] eqn:E; [|discriminate]. simpl.
    intros H. destruct (IH _ H) as [found [-> [Hids Hin]]].
    destruct (get_worker_ok _ _ _ E) as [Hw Hid].
    exists (w :: found). rewrite <- app_assoc. simpl.
    repeat split; [now rewrite Hid, Hids|now constructor].
Qed.

Lemma pearson_result (db : DB) (worker_id : Z) (available : list Worker.t) (n : Z)
      (top : list Worker.t) :
  0 <= n ->
  pearson_correlation_coefficient db worker_id available n = Ok top ->
  exists r,
    ranking db worker_id available = Ok r
    /\ map Worker.id top = map fst (firstn (Z.to_nat n) r)
    /\ Forall (fun w => In w (workers db)) top.
Proof.
  intros Hn. rewrite pearson_by_ranking.
  destruct (ranking db worker_id available) as [r|e]; [|discriminate].
  simpl. unfold lookup_workers. intros H.
  destruct (lookup_workers_from _ _ _ _ H) as [found [-> [Hids Hin]]].
  exists r. split; [reflexivity|]. simpl. split; [|exact Hin].
  rewrite Hids. unfold slice_to. apply Z.leb_le in Hn. now rewrite Hn.
Qed.

(** X5.  Whenever the recommender returns, its result is the head of the
    ranking: the workers, looked up in the worker table, of the first [n]
    entries ([n >= 0]), in ranking order; they are [n] workers, or all
    ranked workers when these are fewer. *)
Theorem pearson_top_of_ranking
        (db : DB) (worker_id : Z) (available : list Worker.t) (n : Z)
        (top : list Worker.t) :
  0 <= n ->
  pearson_correlation_coefficient db worker_id available n = Ok top ->
  exists r,
    ranking db worker_id available = Ok r
    /\ map Worker.id top = map fst (firstn (Z.to_nat n) r)
    /\ List.length top = Nat.min (Z.to_nat n) (List.length r)
    /\ Forall (fun w => In w (workers db)) top.
Proof.
  intros Hn H. destruct (pearson_result _ _ _ _ _ Hn H) as [r [Hr [Hids Hin]]].
  exists r. split; [exact Hr|]. split; [exact Hids|]. split; [|exact Hin].
  rewrite <- (length_map Worker.id), Hids, length_map. apply length_firstn.
Qed.

Lemma pearson_top_of_ranking_example :
  exists r,
    ranking RatingExample.db 1 (workers RatingExample.db) = Ok r
    /\ map Worker.id [RatingExample.candidate] = map fst (firstn (Z.to_nat 5) r)
    /\ List.length [RatingExample.candidate]
       = Nat.min (Z.to_nat 5) (List.length r)
    /\ Forall (fun w => In w (workers RatingExample.db)) [RatingExample.candidate].
Proof.
  apply (pearson_top_of_ranking RatingExample.db 1 (workers RatingExample.db) 5).
  - lia.
  - reflexivity.
Defined.

Lemma related_at_most_five (db : DB) (form : Forms.TaskCreateForm)
      (related : list Worker.t) :
  Views.related_workers db form = Ok related -> (List.length related <= 5)%nat.
Proof.
  unfold Views.related_workers.
  destruct (Views.matching_workers _ _) as [|m ms].
  - destruct (Views.order_by_rank db _) as [|top_worker rest]; [discriminate|].
    intros H.
    destruct (pearson_result db _ _ 5 related ltac:(lia) H) as [r [_ [Hids _]]].
    rewrite <- (length_map Worker.id), Hids, length_map.
    apply firstn_le_length.
  - match goal with
    | |- Ok ?x = Ok _ -> _ =>
        intros H; assert (Hrel : x = related) by congruence;
        rewrite <- Hrel; clear H Hrel
    end.
    apply firstn_le_length.
Qed.

(** X2.  Whatever the dispatch selects, by skill or by similarity, it
    selects at most five workers, each a row of the worker table carrying
    the id of a worker that passed the availability filter. *)
Theorem dispatch_candidates (db : DB) (form : Forms.TaskCreateForm)
        (related : list Worker.t) :
  Views.related_workers db form = Ok related ->
  (List.length related <= 5)%nat
  /\ forall w, In w related ->
               In w (workers db)
               /\ exists a,
                    In a (Views.available_workers db (Forms.start_time form)
                                                  (Forms.end_time form))
                    /\ Worker.id a = Worker.id w.
Proof.
  unfold Views.related_workers.
  set (available := Views.available_workers db (Forms.start_time form)
                                            (Forms.end_time form)).
  assert (Hav : forall w, In w available -> In w (workers db)).
  { intros w Hw. unfold available, Views.available_workers in Hw.
    apply filter_In in Hw. destruct Hw as [Hw _].
    apply filter_In in Hw. tauto. }
  destruct (Views.matching_workers (Forms.title form) available) as [|m ms] eqn:Em.
  - destruct (Views.order_by_rank db available) as [|top_worker rest]; [discriminate|].
    intros H.
    destruct (pearson_result db _ available 5 related ltac:(lia) H)
      as [r [Hr [Hids Hin]]].
    split.
    + rewrite <- (length_map Worker.id), Hids, length_map.
      apply firstn_le_length.
    + intros w Hw. rewrite Forall_forall in Hin. split; [now apply Hin|].
      assert (Hk : In (Worker.id w) (map fst r)).
      { assert (Hk : In (Worker.id w) (map Worker.id related)) by now apply in_map.
        rewrite Hids in Hk. apply in_map_iff in Hk. destruct Hk as [kv [<- Hkv]].
        apply in_map. eapply firstn_In, Hkv. }
      destruct (ranking_keys _ _ _ _ Hr) as [_ [_ [_ Hkeys]]].
      apply Hkeys in Hk. destruct Hk as [_ [a [Ha Hid]]]. now exists a.
  - match goal with
    | |- Ok ?x = Ok _ -> _ =>
        intros H; assert (Hrel : x = related) by congruence;
        rewrite <- Hrel; clear H Hrel
    end.
    split; [apply firstn_le_length|].
    intros w Hw. apply firstn_In in Hw. apply filter_In in Hw.
    destruct Hw as [Hw _]. apply sort_desc_In in Hw. rewrite <- Em in Hw.
    unfold Views.matching_workers in Hw. apply filter_In in Hw.
    destruct Hw as [Hw _]. split; [now apply Hav|now exists w].
Qed.

Lemma dispatch_candidates_example :
  (List.length [SkillExample.cook; SkillExample.cleaner] <= 5)%nat
  /\ forall w, In w [SkillExample.cook; SkillExample.cleaner] ->
               In w (workers SkillExample.db)
               /\ exists a,
                    In a (Views.available_workers SkillExample.db 100 200)
                    /\ Worker.id a = Worker.id w.
Proof.
  apply (dispatch_candidates SkillExample.db (SkillExample.form "Cleaning")).
  reflexivity.
Defined.

End Ranking.

(** ** The rows a dispatch creates *)

Lemma save_insert (x : Task.t) (db : DB) :
  Task.pk x = None ->
  save x db
  = (Task.set_pk (Some (next_pk db)) x,
     mkDB (workers db) (Task.set_pk (Some (next_pk db)) x :: tasks db)
          (notifications db) (next_pk db + 1)).
Proof. intros H. unfold save. now rewrite H. Qed.

Lemma insert_well_keyed (db : DB) (y : Task.t) (n : list TaskNotification.t) :
  well_keyed db ->
  Task.pk y = Some (next_pk db) ->
  well_keyed (mkDB (workers db) (y :: tasks db) n (next_pk db + 1)).
Proof.
  intros [Hu Hb] Hy. split.
  - unfold unique_keys in *. simpl. constructor; [|assumption].
    rewrite Hy. intros C. apply in_map_iff in C. destruct C as [z [Hz Hin]].
    destruct (Hb z Hin) as [p [Hp Hlt]]. rewrite Hp in Hz.
    injection Hz as ->. lia.
  - intros z [<- | Hz]; simpl.
    + exists (next_pk db). split; [assumption|lia].
    + destruct (Hb z Hz) as [p [Hp Hlt]]. exists p. split; [assumption|lia].
Qed.

Lemma replace_by_itself (x : Task.t) (l : list Task.t) :
  NoDup (map Task.pk l) -> In x l -> map (update_row x false) l = l.
Proof.
  intros Hn Hx. rewrite <- (map_id l) at 2. apply map_ext_in. intros y Hy.
  unfold update_row. destruct (pk_eqb (Task.pk y) (Task.pk x)) eqn:E; [|reflexivity].
  apply pk_eqb_eq in E. symmetry. now apply (unique_row l).
Qed.

Lemma save_present (x : Task.t) (db : DB) :
  well_keyed db -> In x (tasks db) -> save x db = (x, db).
Proof.
  intros [Hu Hb] Hx. destruct (Hb x Hx) as [p [Hp _]].
  rewrite (save_existing x db p Hp) by (now exists x).
  rewrite replace_by_itself by assumption. now destruct db.
Qed.

Lemma request_rows_length (form : Forms.TaskCreateForm) (customer : Z)
      (uuid : string) (pk : Z) (related : list Worker.t) :
  List.length (request_rows form customer uuid pk related) = List.length related.
Proof.
  revert pk. induction related as [|w l IH]; intros pk; simpl; [reflexivity|].
  now rewrite IH.
Qed.

(** The loop of the dispatch: it inserts the rows of the candidates, newest
    on top, and leaves the form's instance as the row saved last. *)
Lemma send_requests_spec (form : Forms.TaskCreateForm) (customer : Z) (uuid : string)
      (related : list Worker.t) :
  forall (p : option Z) (r : option string) (w : option Z) (h : option Decimal.t)
         (names : list string) (db : DB),
    well_keyed db ->
    exists instance db',
      Views.send_requests uuid related (draft_like form customer p r w h) names db
      = (instance, (names ++ map Worker.username related)%list, db')
      /\ db' = mkDB (workers db)
                    (rev (request_rows form customer uuid (next_pk db) related)
                     ++ tasks db)
                    (notifications db)
                    (next_pk db + Z.of_nat (List.length related))
      /\ well_keyed db'
      /\ match related with
         | [] => instance = draft_like form customer p r w h
         | _ :: _ => In instance (tasks db')
         end.
Proof.
  induction related as [|worker rest IH]; intros p r w h names db Hwk.
  - exists (draft_like form customer p r w h), db. simpl.
    rewrite app_nil_r, Z.add_0_r.
    split; [reflexivity|]. split; [now destruct db|]. split; [exact Hwk|reflexivity].
  - cbn [Views.send_requests].
    set (task := Task.set_hourly_rate _ _).
    rewrite (save_insert task db eq_refl).
    change (Task.set_pk (Some (next_pk db)) task)
      with (draft_like form customer (Some (next_pk db)) (Some uuid)
                       (Some (Worker.id worker))
                       (Some (Worker.hourly_rate worker))).
    set (row1 := draft_like _ _ _ _ _ _).
    set (db1 := mkDB (workers db) (row1 :: tasks db) (notifications db)
                     (next_pk db + 1)).
    assert (Hwk1 : well_keyed db1) by (now apply insert_well_keyed).
    destruct (IH (Some (next_pk db)) (Some uuid) (Some (Worker.id worker))
                 (Some (Worker.hourly_rate worker))
                 (names ++ [Worker.username worker])%list db1 Hwk1)
      as [instance [db' [Hrun [Hdb [Hwk' Hinst]]]]].
    exists instance, db'. fold row1 in Hrun.
    assert (Hdb' : db' = mkDB (workers db)
                     (rev (request_rows form customer uuid (next_pk db)
                                        (worker :: rest)) ++ tasks db)
                     (notifications db)
                     (next_pk db + Z.of_nat (List.length (worker :: rest)))).
    { rewrite Hdb. unfold db1. cbn [workers tasks notifications next_pk].
      cbn [request_rows rev List.length]. rewrite <- app_assoc.
      change (request_row form customer uuid (next_pk db) worker) with row1.
      f_equal. lia. }
    split; [|split; [exact Hdb'|split; [exact Hwk'|]]].
    + rewrite Hrun. cbn [map]. now rewrite <- app_assoc.
    + destruct rest as [|w2 rest'].
      * rewrite Hinst, Hdb. unfold db1. simpl. now left.
      * exact Hinst.
Qed.

Lemma request_rows_fields (form : Forms.TaskCreateForm) (customer : Z)
      (uuid : string) (related : list Worker.t) (pk : Z) (y : Task.t) :
  In y (request_rows form customer uuid pk related) ->
  Task.request_id y = Some uuid
  /\ Task.status y = requested
  /\ Task.customer y = customer
  /\ Task.total_cost y = None
  /\ exists w, In w related
               /\ Task.worker y = Some (Worker.id w)
               /\ Task.hourly_rate y = Some (Worker.hourly_rate w).
Proof.
  revert pk. induction related as [|w l IH]; intros pk; simpl; [easy|].
  intros [<- | Hy].
  - repeat split. exists w. repeat split. now left.
  - destruct (IH _ Hy) as (H1 & H2 & H3 & H4 & w' & Hw' & H5 & H6).
    repeat split; trivial. exists w'. repeat split; trivial. now right.
Qed.

Lemma task_create_rows (db : DB) (form : Forms.TaskCreateForm)
      (customer : Z) (uuid : string) (related : list Worker.t) :
  well_keyed db ->
  Views.related_workers db form = Ok related ->
  related <> [] ->
  Views.task_create form customer uuid db
  = (Ok (Views.mkResponse [Views.success Views.created_message]
                          (map Worker.username related)),
     mkDB (workers db)
          (rev (request_rows form customer uuid (next_pk db) related) ++ tasks db)
          (notifications db)
          (next_pk db + Z.of_nat (List.length related))).
Proof.
  intros Hwk Hrel Hne.
  unfold Views.task_create. rewrite Hrel.
  destruct (send_requests_spec form customer uuid related None None None None
                               [] db Hwk)
    as [instance [db' [Hrun [Hdb [Hwk' Hinst]]]]].
  change (Views.draft form customer)
    with (draft_like form customer None None None None).
  rewrite Hrun. cbn [app].
  destruct related as [|w rest]; [contradiction|].
  rewrite (save_present instance db' Hwk' Hinst).
  rewrite length_map.
  assert (Hpos : (0 <? Z.of_nat (List.length (w :: rest))) = true)
    by (apply Z.ltb_lt; simpl; lia).
  rewrite Hpos, Hdb. reflexivity.
Qed.

(** X1.  A dispatch that selects candidates answers with the success
    message and the candidates' user names, and adds to the task table, on
    top and in candidate order, exactly one row per candidate under fresh
    consecutive keys: each row copies the draft, is requested, carries the
    one request identifier of the dispatch, its candidate as worker and the
    candidate's rate, and has no cost yet.  Nothing else is written. *)
Theorem dispatch_creates_group (db : DB) (form : Forms.TaskCreateForm)
        (customer : Z) (uuid : string) (related : list Worker.t) :
  well_keyed db ->
  Views.related_workers db form = Ok related ->
  related <> [] ->
  Views.task_create form customer uuid db
  = (Ok (Views.mkResponse [Views.success Views.created_message]
                          (map Worker.username related)),
     mkDB (workers db)
          (rev (request_rows form customer uuid (next_pk db) related) ++ tasks db)
          (notifications db)
          (next_pk db + Z.of_nat (List.length related)))
  /\ map Task.worker (request_rows form customer uuid (next_pk db) related)
     = map (fun w => Some (Worker.id w)) related
  /\ forall y, In y (request_rows form customer uuid (next_pk db) related) ->
               Task.request_id y = Some uuid
               /\ Task.status y = requested
               /\ Task.customer y = customer
               /\ Task.total_cost y = None
               /\ exists w, In w related
                            /\ Task.worker y = Some (Worker.id w)
                            /\ Task.hourly_rate y = Some (Worker.hourly_rate w).
Proof.
  intros Hwk Hrel Hne. split; [|split].
  - now apply task_create_rows.
  - generalize (next_pk db). clear. induction related as [|w l IH]; intros pk;
      simpl; [reflexivity|]. now rewrite IH.
  - intros y. apply request_rows_fields.
Qed.

Lemma dispatch_creates_group_example :
  Views.task_create (SkillExample.form "Cleaning") 7 "u" SkillExample.db
  = (Ok (Views.mkResponse [Views.success Views.created_message]
                          (map Worker.username
                               [SkillExample.cook; SkillExample.cleaner])),
     mkDB (workers SkillExample.db)
          (rev (request_rows (SkillExample.form "Cleaning") 7 "u"
                             (next_pk SkillExample.db)
                             [SkillExample.cook; SkillExample.cleaner])
           ++ tasks SkillExample.db)
          (notifications SkillExample.db)
          (next_pk SkillExample.db + 2)).
Proof.
  apply (dispatch_creates_group SkillExample.db (SkillExample.form "Cleaning")
                                7 "u" [SkillExample.cook; SkillExample.cleaner]).
  - split.
    + unfold unique_keys. simpl.
      repeat constructor; simpl; intuition discriminate.
    + intros y Hy. simpl in Hy.
      repeat (destruct Hy as [<- | Hy];
              [eexists; split; [reflexivity|reflexivity]|]).
      destruct Hy.
  - reflexivity.
  - discriminate.
Defined.

(** ** The function views *)

Lemma row_after_replace (x : Task.t) (pk : Z) (l : list Task.t) (t : Task.t) :
  Task.pk x = Some pk ->
  find (fun y => pk_eqb (Task.pk y) (Some pk)) l = Some t ->
  find (fun y => pk_eqb (Task.pk y) (Some pk)) (map (update_row x false) l) = Some x
  /\ forall k, k <> pk ->
               find (fun y => pk_eqb (Task.pk y) (Some k)) (map (update_row x false) l)
               = find (fun y => pk_eqb (Task.pk y) (Some k)) l.
Proof.
  intros Hx Ht. split; [now apply (find_updated x false pk l t)|].
  intros k Hk. clear Ht. induction l as [|y l IH]; simpl; [reflexivity|].
  rewrite update_row_pk.
  destruct (pk_eqb (Task.pk y) (Some k)) eqn:E; [|exact IH].
  unfold update_row. rewrite Hx.
  destruct (pk_eqb (Task.pk y) (Some pk)) eqn:E2; [|reflexivity].
  apply pk_eqb_eq in E. apply pk_eqb_eq in E2. congruence.
Qed.

Lemma saved_row (x : Task.t) (pk : Z) (db : DB) (t : Task.t) :
  Task.pk x = Some pk ->
  row pk db = Some t ->
  save x db = (x, set_tasks (map (update_row x false) (tasks db)) db).
Proof.
  intros Hx Ht. apply (save_existing x db pk Hx).
  destruct (row_found _ _ _ Ht) as [Hin Hpk]. now exists t.
Qed.

Lemma accept_rows (db : DB) (pk : Z) (worker : Worker.t) (t : Task.t) :
  row pk db = Some t ->
  Task.worker t = None ->
  Views.task_accept pk (Some worker) db
  = (Ok (Views.mkResponse [Views.success "Task accepted successfully."] []),
     set_tasks (map (update_row
                       (Task.set_status in_progress
                          (Task.set_worker (Some (Worker.id worker)) t)) false)
                    (tasks db)) db).
Proof.
  intros Ht Hw. unfold Views.task_accept, get_object_or_404.
  unfold row in Ht. rewrite Ht, Hw.
  destruct (row_found pk db t Ht) as [_ Hpk].
  rewrite (saved_row (Task.set_status in_progress
                        (Task.set_worker (Some (Worker.id worker)) t))
                     pk db t Hpk Ht).
  reflexivity.
Qed.

(** X6.  [task_accept] on a task without worker binds the requesting worker
    and puts the task in progress, whatever its status was, and writes
    nothing else: the rate and the cost of the row stay as they were and no
    other row changes, the other rows of the request group included. *)
Theorem task_accept_binds (db : DB) (pk : Z) (worker : Worker.t) (t : Task.t) :
  row pk db = Some t ->
  Task.worker t = None ->
  let db' := snd (Views.task_accept pk (Some worker) db) in
  fst (Views.task_accept pk (Some worker) db)
  = Ok (Views.mkResponse [Views.success "Task accepted successfully."] [])
  /\ row pk db'
     = Some (Task.set_status in_progress
               (Task.set_worker (Some (Worker.id worker)) t))
  /\ (forall k, k <> pk -> row k db' = row k db)
  /\ List.length (tasks db') = List.length (tasks db).
Proof.
  intros Ht Hw db'. subst db'. rewrite (accept_rows db pk worker t Ht Hw).
  destruct (row_found pk db t Ht) as [_ Hpk].
  cbn [fst snd]. split; [reflexivity|]. unfold row. cbn [tasks set_tasks].
  destruct (row_after_replace
              (Task.set_status in_progress
                 (Task.set_worker (Some (Worker.id worker)) t))
              pk (tasks db) t Hpk Ht) as [H1 H2].
  split; [exact H1|]. split; [exact H2|apply length_map].
Qed.

Lemma task_accept_binds_example :
  row 1 (snd (Views.task_accept 1 (Some DraftExample.w) DraftExample.db))
  = Some (Task.set_status in_progress
            (Task.set_worker (Some 1) DraftExample.unassigned)).
Proof.
  apply (task_accept_binds DraftExample.db 1 DraftExample.w DraftExample.unassigned);
    reflexivity.
Defined.

Lemma set_tasks_row (l : list Task.t) (db : DB) (k : Z) :
  row k (set_tasks l db) = find (fun y => pk_eqb (Task.pk y) (Some k)) l.
Proof. reflexivity. Qed.

(** X7.  [task_reject] takes the worker off an assigned task and makes it
    requested again, whatever its status was (completed and vanished
    included); a [task_accept] that follows binds any requesting worker and
    puts the task in progress.  No other row changes. *)
Theorem reject_then_accept (db : DB) (pk : Z) (worker : Worker.t) (t : Task.t) :
  row pk db = Some t ->
  Task.worker t <> None ->
  row pk (run [Reject pk] db)
  = Some (Task.set_status requested (Task.set_worker None t))
  /\ row pk (run [Reject pk; Accept pk (Some worker)] db)
     = Some (Task.set_status in_progress
               (Task.set_worker (Some (Worker.id worker)) t))
  /\ (forall k, k <> pk ->
                row k (run [Reject pk; Accept pk (Some worker)] db) = row k db).
Proof.
  intros Ht Hw.
  destruct (row_found pk db t Ht) as [_ Hpk].
  set (x := Task.set_status requested (Task.set_worker None t)).
  assert (Hrej : run [Reject pk] db
                 = set_tasks (map (update_row x false) (tasks db)) db).
  { unfold run. simpl. unfold Views.task_reject, get_object_or_404.
    unfold row in Ht. rewrite Ht.
    destruct (Task.worker t) as [i|]; [|contradiction].
    fold x. rewrite (saved_row x pk db t Hpk Ht). reflexivity. }
  destruct (row_after_replace x pk (tasks db) t Hpk Ht) as [H1 H2].
  assert (Hx : row pk (run [Reject pk] db) = Some x)
    by (rewrite Hrej, set_tasks_row; exact H1).
  split; [exact Hx|].
  change (run [Reject pk; Accept pk (Some worker)] db)
    with (snd (Views.task_accept pk (Some worker) (run [Reject pk] db))).
  rewrite (accept_rows (run [Reject pk] db) pk worker x Hx eq_refl).
  cbn [snd]. rewrite !set_tasks_row.
  unfold row in Hx.
  destruct (row_after_replace
              (Task.set_status in_progress
                 (Task.set_worker (Some (Worker.id worker)) x))
              pk (tasks (run [Reject pk] db)) x Hpk Hx) as [Ha Hb].
  split.
  - rewrite Ha. destruct t; reflexivity.
  - intros k Hk. rewrite set_tasks_row, (Hb k Hk), Hrej. now apply H2.
Qed.

Lemma reject_then_accept_example :
  row 1 (run [Reject 1; Accept 1 (Some DoneExample.other)] DoneExample.db)
  = Some (Task.set_status in_progress
            (Task.set_worker (Some 2) DoneExample.finished)).
Proof.
  apply (reject_then_accept DoneExample.db 1 DoneExample.other DoneExample.finished).
  - reflexivity.
  - discriminate.
Defined.

(** X8.  [task_complete] writes only for the worker the task is assigned
    to: for anybody else, and for a task without worker, it answers with a
    warning and leaves the database as it is.  For the assigned worker it
    sets the status to completed, whatever the status was, and touches no
    other row and no other field. *)
Theorem task_complete_guard (db : DB) (pk : Z) (worker : Worker.t) (t : Task.t) :
  row pk db = Some t ->
  (Task.worker t <> Some (Worker.id worker) ->
   Views.task_complete pk (Some worker) db
   = (Ok (Views.mkResponse [Views.warning "Task is not assigned to you."] []), db))
  /\ (Task.worker t = Some (Worker.id worker) ->
      fst (Views.task_complete pk (Some worker) db)
      = Ok (Views.mkResponse [Views.success "Task completed successfully."] [])
      /\ row pk (snd (Views.task_complete pk (Some worker) db))
         = Some (Task.set_status completed t)
      /\ forall k, k <> pk ->
                   row k (snd (Views.task_complete pk (Some worker) db)) = row k db).
Proof.
  intros Ht. destruct (row_found pk db t Ht) as [_ Hpk].
  unfold Views.task_complete, get_object_or_404. unfold row in Ht. rewrite Ht.
  split.
  - intros Hne. destruct (Task.worker t) as [i|]; [|reflexivity].
    destruct (i =? Worker.id worker) eqn:E; [|reflexivity].
    apply Z.eqb_eq in E. congruence.
  - intros Hw. rewrite Hw, Z.eqb_refl.
    rewrite (saved_row (Task.set_status completed t) pk db t Hpk Ht).
    cbn [fst snd]. split; [reflexivity|]. rewrite !set_tasks_row.
    destruct (row_after_replace (Task.set_status completed t) pk (tasks db) t
                                Hpk Ht) as [H1 H2].
    split; [exact H1|].
    intros k Hk. rewrite set_tasks_row. now apply H2.
Qed.

Lemma task_complete_guard_example :
  Views.task_complete 1 (Some DoneExample.other) DoneExample.db
  = (Ok (Views.mkResponse [Views.warning "Task is not assigned to you."] []),
     DoneExample.db).
Proof.
  apply (task_complete_guard DoneExample.db 1 DoneExample.other DoneExample.finished).
  - reflexivity.
  - discriminate.
Defined.

(** ** Rating *)



(** ** What no view does: delete, reorder or re-key rows *)

Lemma save_frame (x : Task.t) (db : DB) :
  Task.pk x <> None ->
  fst (save x db) = x
  /\ workers (snd (save x db)) = workers db
  /\ next_pk (snd (save x db)) = next_pk db.
Proof.
  intros H. unfold save. destruct (Task.pk x); [|contradiction].
  destruct (existsb _ _); repeat split.
Qed.

Ltac frame_save :=
  match goal with
  | |- context [save ?x ?d] =>
      let H1 := fresh in
      let H2 := fresh in
      let H3 := fresh in
      destruct (save_frame x d) as (H1 & H2 & H3);
      [simpl; congruence|];
      destruct (save x d); simpl in H1, H2, H3; subst; simpl
  end.

Lemma task_update_frame (pk : Z) (posted : task_status) (from_requested : bool)
      (user_worker : option Worker.t) (db : DB) :
  workers (snd (Views.task_update pk posted from_requested user_worker db))
  = workers db
  /\ next_pk (snd (Views.task_update pk posted from_requested user_worker db))
     = next_pk db.
Proof.
  unfold Views.task_update, get_object_or_404.
  destruct (find _ (tasks db)) as [t|] eqn:Hfind; [|now split].
  destruct (Views.get_form t from_requested); [|now split].
  destruct (Forms.status_in posted _); [|now split].
  apply find_some in Hfind. destruct Hfind as [_ Hpk]. apply pk_eqb_eq in Hpk.
  unfold Views.form_valid.
  destruct posted; cbn [Task.status Task.set_status].
  - frame_save. frame_save. split; congruence.
  - destruct user_worker; [|now split].
    frame_save. frame_save. split; congruence.
  - frame_save.
    match goal with |- context [Views.worker_username ?d ?x] =>
      destruct (Views.worker_username d x)
    end; [|simpl; split; congruence].
    frame_save. split; congruence.
  - frame_save.
    match goal with |- context [Views.worker_username ?d ?x] =>
      destruct (Views.worker_username d x)
    end; [|simpl; split; congruence].
    frame_save. split; congruence.
  - frame_save. frame_save. split; congruence.
Qed.

Lemma identity_update_row (x t : Task.t) (a : bool) (l : list Task.t) :
  NoDup (map Task.pk l) -> In t l ->
  Task.pk x = Task.pk t -> Task.request_id x = Task.request_id t ->
  map identity (map (update_row x a) l) = map identity l.
Proof.
  intros Hn Ht Hpk Hrid. rewrite map_map. apply map_ext_in. intros y Hy.
  unfold identity, update_row.
  destruct (pk_eqb (Task.pk y) (Task.pk x)) eqn:E.
  - apply pk_eqb_eq in E.
    assert (y = t) by (apply (unique_row l); congruence). subst y.
    now rewrite Hpk, Hrid.
  - destruct (a && _); reflexivity.
Qed.

Lemma well_keyed_same_identity (db db' : DB) :
  map identity (tasks db') = map identity (tasks db) ->
  next_pk db' = next_pk db ->
  well_keyed db -> well_keyed db'.
Proof.
  intros Hid Hn [Hu Hb].
  assert (Hpk : map Task.pk (tasks db') = map Task.pk (tasks db)).
  { assert (H : forall l, map Task.pk l = map fst (map identity l))
      by (intros l; rewrite map_map; reflexivity).
    now rewrite !H, Hid. }
  split.
  - unfold unique_keys. now rewrite Hpk.
  - intros y Hy. rewrite Hn.
    assert (Hin : In (Task.pk y) (map Task.pk (tasks db)))
      by (rewrite <- Hpk; now apply in_map).
    apply in_map_iff in Hin. destruct Hin as [z [Hz Hzin]].
    rewrite <- Hz. now apply Hb.
Qed.

(** A view that saves a changed copy of the row it fetched. *)
Lemma identity_after_save (x t : Task.t) (pk : Z) (db : DB) :
  well_keyed db ->
  row pk db = Some t ->
  Task.pk x = Task.pk t -> Task.request_id x = Task.request_id t ->
  map identity (tasks (snd (save x db))) = map identity (tasks db)
  /\ next_pk (snd (save x db)) = next_pk db.
Proof.
  intros [Hu _] Ht Hpk Hrid. destruct (row_found pk db t Ht) as [Hin Ht'].
  rewrite (saved_row x pk db t) by congruence. simpl.
  split; [|reflexivity]. now apply (identity_update_row x t).
Qed.

Lemma request_identity (r : request) (db : DB) :
  well_keyed db ->
  map identity (tasks (snd (handle r db))) = map identity (tasks db)
  /\ next_pk (snd (handle r db)) = next_pk db.
Proof.
  intros Hwk. destruct r as [pk posted f uw | pk uw | pk | pk uw]; simpl.
  - split; [|apply task_update_frame].
    destruct (task_update_effect pk posted f uw db)
      as [-> | (t & x & choices & Hrow & _ & _ & Hx & Hrid & _ & ->)];
      [reflexivity|].
    destruct (row_found _ _ _ Hrow) as [Hin Hpk]. destruct Hwk as [Hu _].
    apply (identity_update_row x t); trivial. congruence.
  - unfold Views.task_accept, get_object_or_404.
    destruct (find _ (tasks db)) as [t|] eqn:Ht; [|now split].
    destruct (Task.worker t); [now split|].
    destruct uw as [w|]; [|now split].
    match goal with |- context [save ?x db] =>
      destruct (identity_after_save x t pk db Hwk Ht eq_refl eq_refl) as [H1 H2];
      destruct (save x db)
    end. now split.
  - unfold Views.task_reject, get_object_or_404.
    destruct (find _ (tasks db)) as [t|] eqn:Ht; [|now split].
    destruct (Task.worker t); [|now split].
    match goal with |- context [save ?x db] =>
      destruct (identity_after_save x t pk db Hwk Ht eq_refl eq_refl) as [H1 H2];
      destruct (save x db)
    end. now split.
  - unfold Views.task_complete, get_object_or_404.
    destruct (find _ (tasks db)) as [t|] eqn:Ht; [|now split].
    destruct (Task.worker t); [|now split].
    destruct uw as [w|]; [|now split].
    destruct (_ =? _); [|now split].
    match goal with |- context [save ?x db] =>
      destruct (identity_after_save x t pk db Hwk Ht eq_refl eq_refl) as [H1 H2];
      destruct (save x db)
    end. now split.
Qed.

Lemma rate_identity (pk : Z) (m : Rating.method) (uc : option Z) (db : DB) :
  well_keyed db ->
  map identity (tasks (snd (Rating.task_rate pk m uc db))) = map identity (tasks db)
  /\ next_pk (snd (Rating.task_rate pk m uc db)) = next_pk db.
Proof.
  intros Hwk. unfold Rating.task_rate, get_object_or_404.
  destruct (find _ (tasks db)) as [t|] eqn:Ht; [|now split].
  destruct (_ && _); [|now split].
  destruct m as [|rating review]; [destruct (Task.rating t); now split|].
  match goal with |- context [save ?x db] =>
    destruct (identity_after_save x t pk db Hwk Ht eq_refl eq_refl) as [H1 H2];
    destruct (save x db)
  end. now split.
Qed.

Lemma create_identity (form : Forms.TaskCreateForm) (customer : Z) (uuid : string)
      (db : DB) :
  well_keyed db ->
  well_keyed (snd (Views.task_create form customer uuid db))
  /\ exists new,
      tasks (snd (Views.task_create form customer uuid db)) = new ++ tasks db
      /\ (List.length new <= 5)%nat
      /\ next_pk (snd (Views.task_create form customer uuid db))
         = next_pk db + Z.of_nat (List.length new).
Proof.
  intros Hwk. unfold Views.task_create.
  destruct (Views.related_workers db form) as [related|e] eqn:Hrel.
  - destruct (send_requests_spec form customer uuid related None None None None
                                 [] db Hwk)
      as [instance [db' [Hrun [Hdb [Hwk' Hinst]]]]].
    change (Views.draft form customer)
      with (draft_like form customer None None None None).
    rewrite Hrun.
    destruct related as [|w rest].
    + subst instance. rewrite (save_insert _ db') by reflexivity.
      cbn [snd]. rewrite Hdb in *. cbn [workers tasks notifications next_pk] in *.
      cbn [request_rows rev app List.length] in *.
      split.
      * replace (next_pk db + Z.of_nat 0) with (next_pk db) in * by lia.
        apply (insert_well_keyed (mkDB (workers db) (tasks db) (notifications db)
                                       (next_pk db))); [|reflexivity].
        now destruct db.
      * eexists [_]. split; [reflexivity|]. split; [simpl; lia|]. simpl. lia.
    + rewrite (save_present instance db' Hwk' Hinst). cbn [snd].
      split; [exact Hwk'|]. rewrite Hdb. cbn [tasks next_pk].
      exists (rev (request_rows form customer uuid (next_pk db) (w :: rest))).
      split; [reflexivity|].
      rewrite length_rev, request_rows_length. split; [|reflexivity].
      apply (related_at_most_five db form (w :: rest) Hrel).
  - split; [exact Hwk|]. exists []. repeat split; simpl; [lia|lia].
Qed.

(** X10.  Along any sequence of dispatches, status updates, acceptances,
    rejections, completions and ratings, starting from a table whose keys
    are distinct and below the key counter: no row is ever deleted, moved or
    given another key or request identifier; rows are only added on top,
    and the keys stay distinct and below the counter. *)
Theorem rows_are_kept (es : list event) (db : DB) :
  well_keyed db ->
  well_keyed (replay es db)
  /\ exists new,
      map identity (tasks (replay es db)) = new ++ map identity (tasks db).
Proof.
  revert db. induction es as [|e es IH]; intros db Hwk.
  - split; [exact Hwk|]. now exists [].
  - assert (Hstep : well_keyed (apply_event e db)
                    /\ exists new, map identity (tasks (apply_event e db))
                                   = new ++ map identity (tasks db)).
    { destruct e as [r | form customer uuid | pk m uc]; simpl.
      - destruct (request_identity r db Hwk) as [H1 H2].
        split; [now apply (well_keyed_same_identity db)|].
        exists []. exact H1.
      - destruct (create_identity form customer uuid db Hwk)
          as [H1 [new [H2 _]]].
        split; [exact H1|]. exists (map identity new). now rewrite H2, map_app.
      - destruct (rate_identity pk m uc db Hwk) as [H1 H2].
        split; [now apply (well_keyed_same_identity db)|].
        exists []. exact H1. }
    destruct Hstep as [Hwk1 [new1 H1]].
    destruct (IH (apply_event e db) Hwk1) as [Hwk2 [new2 H2]].
    change (replay (e :: es) db) with (replay es (apply_event e db)).
    split; [exact Hwk2|]. exists (new2 ++ new1).
    now rewrite H2, H1, app_assoc.
Qed.

Lemma rows_are_kept_example :
  well_keyed
    (replay [Create (SkillExample.form "Cleaning") 7 "u";
             Request (Update 9 in_progress false (Some SkillExample.cook));
             Rate 1 (Rating.POST (Some 3) "ok") (Some 21)]
            SkillExample.db)
  /\ exists new,
      map identity
          (tasks (replay [Create (SkillExample.form "Cleaning") 7 "u";
                          Request (Update 9 in_progress false
                                          (Some SkillExample.cook));
                          Rate 1 (Rating.POST (Some 3) "ok") (Some 21)]
                         SkillExample.db))
      = new ++ map identity (tasks SkillExample.db).
Proof.
  apply (rows_are_kept _ SkillExample.db). split.
  - unfold unique_keys. simpl.
    repeat constructor; simpl; intuition discriminate.
  - intros y Hy. simpl in Hy.
    repeat (destruct Hy as [<- | Hy];
            [eexists; split; [reflexivity|reflexivity]|]).
    destruct Hy.
Defined.

(** ** Acceptance through the status form *)

Lemma find_update_row_other (x : Task.t) (a : bool) (pk k : Z) (l : list Task.t) :
  Task.pk x = Some pk -> k <> pk ->
  find (fun y => pk_eqb (Task.pk y) (Some k)) (map (update_row x a) l)
  = option_map (update_row x a) (find (fun y => pk_eqb (Task.pk y) (Some k)) l).
Proof.
  intros Hx Hk. induction l as [|y l IH]; simpl; [reflexivity|].
  rewrite update_row_pk.
  destruct (pk_eqb (Task.pk y) (Some k)); [reflexivity|exact IH].
Qed.



(** X12.  The transitions of the status form.  After a POST to the update
    view the posted row still exists and its status is the one it had, or
    it went requested -> in-progress, requested -> rejected, in-progress ->
    completed (without [from_requested]) or in-progress -> rejected (with
    [from_requested=true]).  The form never sets requested or vanished and
    never changes a completed, rejected or vanished row; and a post other
    than in-progress changes no other row. *)
Theorem form_transitions (db : DB) (pk : Z) (posted : task_status)
        (from_requested : bool) (user_worker : option Worker.t) (t : Task.t) :
  row pk db = Some t ->
  exists x,
    row pk (snd (Views.task_update pk posted from_requested user_worker db)) = Some x
    /\ (Task.status x = Task.status t
        \/ (Task.status t = requested /\ Task.status x = in_progress)
        \/ (Task.status t = requested /\ Task.status x = rejected)
        \/ (Task.status t = in_progress /\ from_requested = false
            /\ Task.status x = completed)
        \/ (Task.status t = in_progress /\ from_requested = true
            /\ Task.status x = rejected))
    /\ (posted <> in_progress ->
        forall k, k <> pk ->
                  row k (snd (Views.task_update pk posted from_requested
                                                user_worker db))
                  = row k db).
Proof.
  intros Ht.
  destruct (task_update_effect pk posted from_requested user_worker db)
    as [Hsame | (t' & x & choices & Hrow & Hform & Hin & Hx & Hrid & Hst & Htasks)].
  - exists t. unfold row in *. rewrite Hsame. split; [assumption|].
    split; [now left|reflexivity].
  - assert (t' = t) by congruence. subst t'.
    exists x. split; [|split].
    + unfold row in *. rewrite Htasks.
      now apply (find_updated x _ pk (tasks db) t).
    + rewrite Hst. clear Htasks.
      unfold Views.get_form, Forms.init_choices, Forms.valid_transitions in Hform.
      destruct (Task.status t), from_requested; simpl in Hform;
        try discriminate; injection Hform as <-;
        destruct posted; simpl in Hin; try discriminate; auto 10.
    + intros Hp k Hk. unfold row. rewrite Htasks.
      assert (E : status_eqb posted in_progress = false).
      { apply not_true_iff_false. intros C. now apply status_eqb_eq in C. }
      rewrite E, (find_update_row_other x false pk k) by assumption.
      destruct (find _ (tasks db)) as [y|] eqn:Ey; [|reflexivity].
      simpl. f_equal. unfold update_row. rewrite Hx.
      apply find_some in Ey. destruct Ey as [_ Ey]. apply pk_eqb_eq in Ey.
      destruct (pk_eqb (Task.pk y) (Some pk)) eqn:E2; [|reflexivity].
      apply pk_eqb_eq in E2. congruence.
Qed.

Lemma form_transitions_example :
  exists x,
    row 2 (snd (Views.task_update 2 in_progress true (Some GroupExample.w2)
                                  GroupExample.accepted)) = Some x
    /\ (Task.status x = vanished
        \/ (vanished = requested /\ Task.status x = in_progress)
        \/ (vanished = requested /\ Task.status x = rejected)
        \/ (vanished = in_progress /\ true = false /\ Task.status x = completed)
        \/ (vanished = in_progress /\ true = true /\ Task.status x = rejected))
    /\ (in_progress <> in_progress ->
        forall k, k <> 2 ->
                  row k (snd (Views.task_update 2 in_progress true
                                                (Some GroupExample.w2)
                                                GroupExample.accepted))
                  = row k GroupExample.accepted).
Proof.
  apply (form_transitions GroupExample.accepted 2 in_progress true
                          (Some GroupExample.w2)
                          (Task.set_status vanished (GroupExample.asked 2 2))).
  reflexivity.
Defined.

(** ** The group of a dispatch *)

Lemma created_group (db : DB) (form : Forms.TaskCreateForm)
      (customer : Z) (uuid : string) (related : list Worker.t) :
  well_keyed db ->
  Views.related_workers db form = Ok related ->
  related <> [] ->
  group (Some uuid) db = [] ->
  group (Some uuid) (snd (Views.task_create form customer uuid db))
  = rev (request_rows form customer uuid (next_pk db) related).
Proof.
  intros Hwk Hrel Hne Hfresh.
  rewrite (task_create_rows db form customer uuid related Hwk Hrel Hne).
  unfold group in *. cbn [snd tasks]. rewrite filter_app, Hfresh, app_nil_r.
  apply filter_idempotent. intros y Hy. apply in_rev in Hy.
  apply request_id_eqb_eq.
  now apply (request_rows_fields form customer uuid related (next_pk db)).
Qed.

(** X13.  With a request identifier no row carries yet, the request group
    of a dispatch is exactly the rows it created, all of them requested:
    the dispatch sets up the state from which the group resolves to one
    accepted member. *)
Theorem dispatch_group_is_fresh (db : DB) (form : Forms.TaskCreateForm)
        (customer : Z) (uuid : string) (related : list Worker.t) :
  well_keyed db ->
  Views.related_workers db form = Ok related ->
  related <> [] ->
  group (Some uuid) db = [] ->
  let db' := snd (Views.task_create form customer uuid db) in
  group (Some uuid) db'
  = rev (request_rows form customer uuid (next_pk db) related)
  /\ List.length (group (Some uuid) db') = List.length related
  /\ (forall y, In y (group (Some uuid) db') -> Task.status y = requested)
  /\ well_keyed db'.
Proof.
  intros Hwk Hrel Hne Hfresh db'. subst db'.
  pose proof (request_rows_fields form customer uuid related (next_pk db))
    as Hfields.
  pose proof (create_identity form customer uuid db Hwk) as [Hwk' _].
  rewrite (created_group db form customer uuid related Hwk Hrel Hne Hfresh).
  split; [reflexivity|]. split; [|split; [|exact Hwk']].
  - now rewrite length_rev, request_rows_length.
  - intros y Hy. apply in_rev in Hy. now apply Hfields.
Qed.

Lemma dispatch_group_is_fresh_example :
  group (Some "u"%string)
        (snd (Views.task_create (SkillExample.form "Cleaning") 7 "u"
                                SkillExample.db))
  = rev (request_rows (SkillExample.form "Cleaning") 7 "u"
                      (next_pk SkillExample.db)
                      [SkillExample.cook; SkillExample.cleaner]).
Proof.
  apply (dispatch_group_is_fresh SkillExample.db (SkillExample.form "Cleaning")
                                 7 "u" [SkillExample.cook; SkillExample.cleaner]).
  - split.
    + unfold unique_keys. simpl.
      repeat constructor; simpl; intuition discriminate.
    + intros y Hy. simpl in Hy.
      repeat (destruct Hy as [<- | Hy];
              [eexists; split; [reflexivity|reflexivity]|]).
      destruct Hy.
  - reflexivity.
  - discriminate.
  - reflexivity.
Defined.

(** ** A dispatched group under requests *)

Lemma run_identity (rs : list request) (db : DB) :
  well_keyed db ->
  well_keyed (run rs db)
  /\ map identity (tasks (run rs db)) = map identity (tasks db).
Proof.
  revert db. induction rs as [|r rs IH]; intros db Hwk; [now split|].
  rewrite run_cons.
  destruct (request_identity r db Hwk) as [H1 H2].
  destruct (IH (snd (handle r db))) as [H3 H4].
  - now apply (well_keyed_same_identity db).
  - split; [exact H3|]. now rewrite H4.
Qed.

Lemma group_size (g : option string) (l l' : list Task.t) :
  map identity l' = map identity l ->
  List.length (filter (fun x => request_id_eqb (Task.request_id x) g) l')
  = List.length (filter (fun x => request_id_eqb (Task.request_id x) g) l).
Proof.
  revert l'. induction l as [|y l IH]; intros [|y' l'] H;
    try discriminate; [reflexivity|].
  cbn [map] in H. unfold identity at 1 3 in H.
  inversion H as [[Hpk Hr Hl]]. cbn [filter].
  rewrite Hr. destruct (request_id_eqb (Task.request_id y) g); simpl;
    now rewrite (IH l' Hl).
Qed.

(** X18.  After a dispatch under a fresh request identifier and any
    sequence of status updates, acceptances, rejections and completions,
    the group still has one row per notified worker; and when the requests
    are status updates only, either every row of the group is requested or
    rejected, or all rows of the group but one are vanished. *)
Theorem dispatched_group_resolves (db : DB) (form : Forms.TaskCreateForm)
        (customer : Z) (uuid : string) (related : list Worker.t)
        (rs : list request) :
  well_keyed db ->
  Views.related_workers db form = Ok related ->
  related <> [] ->
  group (Some uuid) db = [] ->
  let db' := run rs (snd (Views.task_create form customer uuid db)) in
  List.length (group (Some uuid) db') = List.length related
  /\ (forallb is_update rs = true ->
      open_group (Some uuid) db'
      \/ exists p, resolved (Some uuid) (Some p) db').
Proof.
  intros Hwk Hrel Hne Hfresh db'. subst db'.
  pose proof (created_group db form customer uuid related Hwk Hrel Hne Hfresh)
    as Hg.
  pose proof (create_identity form customer uuid db Hwk) as [Hwk1 _].
  destruct (run_identity rs _ Hwk1) as [_ Hid].
  split.
  - unfold group. rewrite (group_size _ _ _ Hid).
    fold (group (Some uuid) (snd (Views.task_create form customer uuid db))).
    now rewrite Hg, length_rev, request_rows_length.
  - intros Hrs. apply run_open; [exact Hrs|apply Hwk1|].
    intros y Hy. left. rewrite Hg in Hy. apply in_rev in Hy.
    now apply (request_rows_fields form customer uuid related (next_pk db)).
Qed.

Lemma dispatched_group_resolves_example :
  List.length
    (group (Some "u"%string)
           (run [Update 9 in_progress false (Some SkillExample.cook);
                 Update 10 rejected false (Some SkillExample.cleaner)]
                (snd (Views.task_create (SkillExample.form "Cleaning") 7 "u"
                                        SkillExample.db))))
  = List.length [SkillExample.cook; SkillExample.cleaner].
Proof.
  apply (dispatched_group_resolves
           SkillExample.db (SkillExample.form "Cleaning") 7 "u"
           [SkillExample.cook; SkillExample.cleaner]
           [Update 9 in_progress false (Some SkillExample.cook);
            Update 10 rejected false (Some SkillExample.cleaner)]).
  - split.
    + unfold unique_keys. simpl.
      repeat constructor; simpl; intuition discriminate.
    + intros y Hy. simpl in Hy.
      repeat (destruct Hy as [<- | Hy];
              [eexists; split; [reflexivity|reflexivity]|]).
      destruct Hy.
  - reflexivity.
  - discriminate.
  - reflexivity.
Defined.

(** ** Rating histories *)

Section Histories.
Import Recommendations.

Lemma get_set_same {V : Type} (k : Z) (v : V) (d : Dict.t V) :
  Dict.get k (Dict.set k v d) = Some v.
Proof.
  induction d as [|[k' v'] d IH]; simpl.
  - now rewrite Z.eqb_refl.
  - destruct (k =? k') eqn:E; simpl; rewrite E; [reflexivity|exact IH].
Qed.

Lemma get_set_other {V : Type} (k k' : Z) (v : V) (d : Dict.t V) :
  k <> k' -> Dict.get k (Dict.set k' v d) = Dict.get k d.
Proof.
  intros Hne. induction d as [|[k2 v2] d IH]; simpl.
  - apply Z.eqb_neq in Hne. now rewrite Hne.
  - destruct (k' =? k2) eqn:E; simpl.
    + apply Z.eqb_eq in E. subst k2.
      apply Z.eqb_neq in Hne. now rewrite Hne.
    + destruct (k =? k2); [reflexivity|exact IH].
Qed.

Lemma find_app_last {A : Type} (f : A -> bool) (l : list A) (x : A) :
  find f (l ++ [x])
  = match find f l with
    | Some y => Some y
    | None => if f x then Some x else None
    end.
Proof.
  induction l as [|y l IH]; simpl; [reflexivity|].
  destruct (f y); [reflexivity|exact IH].
Qed.

Lemma fold_ratings_get (l : list Task.t) (d : Dict.t (option Z)) (c : Z) :
  Dict.get c (fold_left (fun d task =>
                           Dict.set (Task.customer task) (Task.rating task) d) l d)
  = match last_with c l with
    | Some t => Some (Task.rating t)
    | None => Dict.get c d
    end.
Proof.
  unfold last_with. revert d. induction l as [|x l IH]; intros d; simpl.
  - reflexivity.
  - rewrite IH, find_app_last.
    destruct (find _ (rev l)); [reflexivity|].
    destruct (Task.customer x =? c) eqn:E.
    + apply Z.eqb_eq in E. subst c. apply get_set_same.
    + apply get_set_other. apply Z.eqb_neq in E. congruence.
Qed.

Lemma fold_ratings_nodup (l : list Task.t) (d : Dict.t (option Z)) :
  NoDup (Dict.keys d) ->
  NoDup (Dict.keys (fold_left (fun d task =>
                                 Dict.set (Task.customer task) (Task.rating task) d)
                              l d)).
Proof.
  revert d. induction l as [|x l IH]; intros d H; simpl; [assumption|].
  apply IH. now apply set_keys_nodup.
Qed.

(** X14.  The rating history of a worker has one entry per customer the
    worker has a completed task for; when there are several such tasks for
    one customer, the entry is the rating of the one the table lists last,
    the oldest, and it is [None] when that task is not rated. *)
Theorem ratings_of_oldest (db : DB) (worker_id : Z) (c : Z) :
  Dict.get c (ratings_of db worker_id)
  = option_map Task.rating (last_with c (completed_tasks db worker_id))
  /\ NoDup (Dict.keys (ratings_of db worker_id))
  /\ (Dict.mem c (ratings_of db worker_id) = true <->
      exists t, In t (tasks db)
                /\ Task.worker t = Some worker_id
                /\ Task.status t = completed
                /\ Task.customer t = c).
Proof.
  assert (Hget : Dict.get c (ratings_of db worker_id)
                 = option_map Task.rating
                              (last_with c (completed_tasks db worker_id))).
  { unfold ratings_of. rewrite fold_ratings_get.
    now destruct (last_with c (completed_tasks db worker_id)). }
  split; [exact Hget|]. split.
  - unfold ratings_of. apply fold_ratings_nodup. constructor.
  - unfold Dict.mem. rewrite Hget. unfold last_with, completed_tasks. split.
    + destruct (find _ _) as [t|] eqn:E; [|discriminate]. intros _.
      apply find_some in E. destruct E as [Hin Hc].
      apply in_rev, filter_In in Hin. destruct Hin as [Hin Hf].
      apply andb_true_iff in Hf. destruct Hf as [Hw Hs].
      exists t. repeat split; trivial.
      * now apply pk_eqb_eq.
      * now apply status_eqb_eq.
      * now apply Z.eqb_eq.
    + intros [t [Hin [Hw [Hs Hc]]]].
      destruct (find _ _) as [t'|] eqn:E; [reflexivity|exfalso].
      assert (Hf : (Task.customer t =? c) = false).
      { apply (find_none _ _ E t). apply -> in_rev. apply filter_In.
        split; [assumption|]. apply andb_true_iff.
        split; [now apply pk_eqb_eq|now apply status_eqb_eq]. }
      apply Z.eqb_neq in Hf. contradiction.
Qed.

End Histories.

(** ** The task list of a customer *)

Section Listing.
Import Listing.

Lemma existsb_rid (r : option string) (ids : list (option string)) :
  existsb (request_id_eqb r) ids = true <-> In r ids.
Proof.
  rewrite existsb_exists. split.
  - intros [x [Hx E]]. apply request_id_eqb_eq in E. now subst.
  - intros H. exists r. split; [assumption|now apply request_id_eqb_eq].
Qed.

Lemma unique_loop_spec (l : list Task.t) :
  forall (ids : list (option string)) (u : list Task.t),
    ids = map Task.request_id u ->
    NoDup ids ->
    exists v,
      unique_loop l ids u = u ++ v
      /\ NoDup (map Task.request_id (u ++ v))
      /\ (forall t, In t v ->
                    ~ In (Task.request_id t) ids
                    /\ find (fun y => request_id_eqb (Task.request_id y)
                                                     (Task.request_id t)) l
                       = Some t)
      /\ (forall t, In t l -> In (Task.request_id t)
                                 (map Task.request_id (u ++ v))).
Proof.
  induction l as [|x l IH]; intros ids u Hids Hn; simpl.
  - exists []. rewrite app_nil_r. subst ids. repeat split; easy.
  - destruct (existsb (request_id_eqb (Task.request_id x)) ids) eqn:E.
    + apply existsb_rid in E.
      destruct (IH ids u Hids Hn) as [v [Hrun [Hnd [Hfirst Hcover]]]].
      exists v. split; [exact Hrun|]. split; [exact Hnd|]. split.
      * intros t Ht. destruct (Hfirst t Ht) as [Hnot Hfind].
        split; [exact Hnot|].
        destruct (request_id_eqb (Task.request_id x) (Task.request_id t)) eqn:Ex;
          [|exact Hfind].
        apply request_id_eqb_eq in Ex. rewrite Ex in E. contradiction.
      * intros t [<- | Ht]; [|now apply Hcover].
        rewrite map_app. apply in_or_app. left. now rewrite <- Hids.
    + assert (Hnot : ~ In (Task.request_id x) ids).
      { intros C. apply existsb_rid in C. congruence. }
      destruct (IH (ids ++ [Task.request_id x]) (u ++ [x])) as
          [v [Hrun [Hnd [Hfirst Hcover]]]].
      * rewrite map_app. simpl. now rewrite Hids.
      * apply NoDup_app; [assumption|repeat constructor; easy|].
        intros a Ha [<- | []]. contradiction.
      * rewrite <- app_assoc in Hrun, Hnd, Hcover. simpl in Hrun, Hnd, Hcover.
        exists (x :: v). split; [exact Hrun|]. split; [exact Hnd|]. split.
        -- intros t [<- | Ht].
           ++ split; [exact Hnot|]. now rewrite (proj2 (request_id_eqb_eq _ _) eq_refl).
           ++ destruct (Hfirst t Ht) as [Hn' Hfind]. split.
              ** intros C. apply Hn'. apply in_or_app. now left.
              ** destruct (request_id_eqb (Task.request_id x) (Task.request_id t))
                   eqn:Ex; [|exact Hfind].
                 apply request_id_eqb_eq in Ex. exfalso. apply Hn'.
                 apply in_or_app. right. rewrite Ex. now left.
        -- intros t [<- | Ht]; [|now apply Hcover].
           rewrite map_app. apply in_or_app. right. now left.
Qed.

(** X15.  The requested tasks a customer is shown: one per request
    identifier among the customer's requested rows (rows without identifier
    counting as one group), namely the first, newest, row of each, in table
    order; every requested row of the customer is represented. *)
Theorem one_requested_task_per_group (db : DB) (customer : Z) :
  let requested_rows := of_customer db customer requested in
  let shown := requested_tasks (customer_context db customer) in
  NoDup (map Task.request_id shown)
  /\ (forall t, In t shown ->
                find (fun y => request_id_eqb (Task.request_id y)
                                              (Task.request_id t)) requested_rows
                = Some t)
  /\ (forall t, In t requested_rows ->
                exists t', In t' shown /\ Task.request_id t' = Task.request_id t)
  /\ (forall t, In t shown ->
                Task.customer t = customer /\ Task.status t = requested).
Proof.
  intros requested_rows shown. subst shown. simpl.
  unfold unique_requested_tasks. fold requested_rows.
  destruct (unique_loop_spec requested_rows [] [] eq_refl (NoDup_nil _))
    as [v [Hrun [Hnd [Hfirst Hcover]]]].
  simpl in Hrun, Hnd, Hcover. rewrite Hrun.
  split; [exact Hnd|]. split; [|split].
  - intros t Ht. now apply Hfirst.
  - intros t Ht. apply Hcover, in_map_iff in Ht.
    destruct Ht as [t' [Hr Ht']]. now exists t'.
  - intros t Ht. destruct (Hfirst t Ht) as [_ Hfind].
    apply find_some in Hfind. destruct Hfind as [Hin _].
    unfold requested_rows, of_customer in Hin. apply filter_In in Hin.
    destruct Hin as [_ Hf]. apply andb_true_iff in Hf. destruct Hf as [Hc Hs].
    split; [now apply Z.eqb_eq|now apply status_eqb_eq].
Qed.

End Listing.

(** ** Availability and the fallback *)

(** X16.  A worker the availability filter keeps for a window is kept for
    every window inside it. *)
Theorem available_for_subwindow (db : DB) (start_time end_time s e : Z) (w : Worker.t) :
  start_time <= s -> e <= end_time ->
  In w (Views.available_workers db start_time end_time) ->
  In w (Views.available_workers db s e).
Proof.
  intros Hs He. unfold Views.available_workers.
  rewrite !filter_In, !negb_true_iff.
  intros [[Hw Ha] Hn]. split; [now split|].
  apply not_true_iff_false. intros C. apply not_true_iff_false in Hn. apply Hn.
  apply existsb_exists in C. destruct C as [i [Hi Hid]].
  apply existsb_exists. exists i. split; [|exact Hid].
  apply conflicting_ids in Hi. destruct Hi as [x [Hx Hxw]].
  apply conflicting_ids. exists x. split; [|exact Hxw].
  apply filter_In in Hx. destruct Hx as [Hx Hc]. apply filter_In.
  split; [exact Hx|].
  rewrite !andb_true_iff in *. destruct Hc as [[[H1 H2] H3] H4].
  repeat split; trivial.
  - apply Z.ltb_lt in H3. apply Z.ltb_lt. lia.
  - apply Z.gtb_gt in H4. apply Z.gtb_gt. lia.
Qed.

Lemma available_for_subwindow_example :
  In AvailabilityExample.busy
     (Views.available_workers AvailabilityExample.db 11 12).
Proof.
  apply (available_for_subwindow AvailabilityExample.db 11 13 11 12).
  - lia.
  - lia.
  - simpl. now left.
Defined.

(** X17.  When no available worker matches the title, the dispatch takes
    the best-ranked available worker as the seed of the recommender and
    sends the request to others only: the seed itself is never among the
    candidates. *)
Theorem fallback_excludes_seed (db : DB) (form : Forms.TaskCreateForm)
        (seed : Worker.t) (rest related : list Worker.t) :
  let available :=
    Views.available_workers db (Forms.start_time form) (Forms.end_time form) in
  Views.matching_workers (Forms.title form) available = [] ->
  Views.order_by_rank db available = seed :: rest ->
  Views.related_workers db form = Ok related ->
  Forall (fun w => Worker.id w <> Worker.id seed) related
  /\ forall a, In a available -> Views.rank_lt db seed a = false.
Proof.
  intros available Hm Ho Hrel. split.
  - unfold Views.related_workers in Hrel. fold available in Hrel.
    rewrite Hm, Ho in Hrel.
    destruct (pearson_result db _ available 5 related ltac:(lia) Hrel)
      as [r [Hr [Hids _]]].
    apply Forall_forall. intros w Hw Hc.
    assert (Hk : In (Worker.id w) (map fst r)).
    { assert (Hk : In (Worker.id w) (map Worker.id related)) by now apply in_map.
      rewrite Hids in Hk. apply in_map_iff in Hk. destruct Hk as [kv [<- Hkv]].
      apply in_map. eapply firstn_In, Hkv. }
    destruct (ranking_keys _ _ _ _ Hr) as [_ [_ [_ Hkeys]]].
    apply Hkeys in Hk. destruct Hk as [Hne _]. contradiction.
  - intros a Ha.
    pose proof (sort_desc_sorted (Views.rank_lt db) (rank_lt_asym db)
                                 (rank_lt_negtrans db) available) as Hs.
    unfold sorted_desc in Hs. fold (Views.order_by_rank db available) in Hs.
    assert (Hin : In a (Views.order_by_rank db available))
      by (now apply sort_desc_In).
    rewrite Ho in Hs, Hin. inversion Hs as [|? ? Hall _]; subst.
    destruct Hin as [<- | Hin].
    + destruct (Views.rank_lt db seed seed) eqn:E; [|reflexivity].
      now rewrite (rank_lt_asym db _ _ E) in E.
    + rewrite Forall_forall in Hall. now apply Hall.
Qed.

Lemma fallback_excludes_seed_example :
  Forall (fun w => Worker.id w <> Worker.id FallbackExample.a)
         [FallbackExample.b; FallbackExample.c]
  /\ forall x, In x (Views.available_workers FallbackExample.db 100 200) ->
               Views.rank_lt FallbackExample.db FallbackExample.a x = false.
Proof.
  apply (fallback_excludes_seed FallbackExample.db FallbackExample.form
                                FallbackExample.a
                                [FallbackExample.b; FallbackExample.c]
                                [FallbackExample.b; FallbackExample.c]);
    reflexivity.
Defined.
